(** * Debt payoff estimator and aggregate metrics (tools/pf_calcs.py)

    A shallow embedding of [_estimate_debt_payoff] and [compute_metrics],
    and of the helpers and calculations of the dashboard page
    (tools/finance_dashboard.py).

    The Python code computes on [float]s.  The embedding is written once,
    over an interface [PyFloat] of the operations the code uses, and is run
    at two instances:

    - [binary64]: Rocq's primitive IEEE 754 binary64 floats, the numbers
      CPython computes with (round to nearest even, NaN, infinities);
    - [exact]: the canonical rationals [Qc], arithmetic without rounding.

    Python raises where IEEE arithmetic would return a special value
    ([x / 0.0], [math.ceil(inf)]); the embedding keeps these as results
    [Raise e] of an error monad. *)

From Stdlib Require Import ZArith List String Bool Lia Lqa Floats QArith Qcanon.
From Stdlib Require Import DecimalString.
Import ListNotations.

(** ** Python exceptions and the error monad *)

Inductive exn : Set :=
| ZeroDivisionError
| OverflowError
| ValueError
| OutOfBoundsDatetime.

Inductive res (A : Type) : Type :=
| Ok (a : A)
| Raise (e : exn).

Arguments Ok {A} a.
Arguments Raise {A} e.

Definition bind {A B : Type} (m : res A) (k : A -> res B) : res B :=
  match m with
  | Ok a => k a
  | Raise e => Raise e
  end.

Declare Scope py_scope.
Delimit Scope py_scope with py.

Notation "x <- m ;; k" := (bind m (fun x => k))
  (at level 61, m at next level, right associativity) : py_scope.

(** ** The float interface *)

(** [math.ceil] on a quotient of integers: the least integer not below n/d. *)
Definition Zceil_div (n d : Z) : Z := (- ((- n) / d))%Z.

Class PyFloat (F : Type) : Type := {
  (* the literals of the source: 0.0, 1.0, 12.0, 100.0 *)
  f0 : F;
  f1 : F;
  f12 : F;
  f100 : F;
  fadd : F -> F -> F;
  fsub : F -> F -> F;
  fmul : F -> F -> F;
  (* the quotient for a divisor that is not zero; see [pydiv] *)
  fdiv : F -> F -> F;
  feqb : F -> F -> bool;
  fltb : F -> F -> bool;
  fleb : F -> F -> bool;
  fisnan : F -> bool;
  (* math.ceil: raises on an infinity and on NaN *)
  fceil : F -> res Z;
  (* float(n) for an int n: raises when n is too large *)
  fof_int : Z -> res F
}.

Notation "x + y" := (fadd x y) : py_scope.
Notation "x - y" := (fsub x y) : py_scope.
Notation "x * y" := (fmul x y) : py_scope.
Notation "x =? y" := (feqb x y) : py_scope.
Notation "x <? y" := (fltb x y) : py_scope.
Notation "x <=? y" := (fleb x y) : py_scope.
(* Python's [a > b] and [a >= b] on floats are [b < a] and [b <= a]. *)
Notation "x >? y" := (fltb y x) (at level 70, no associativity) : py_scope.

(** *** IEEE 754 binary64 *)

Definition b64_ceil (x : float) : res Z :=
  match Prim2SF x with
  | S754_zero _ => Ok 0%Z
  | S754_finite s m e =>
      let n := if s then Zneg m else Zpos m in
      match e with
      | Zneg p => Ok (Zceil_div n (Z.pow_pos 2 p))
      | _ => Ok (n * 2 ^ e)%Z
      end
  | S754_infinity _ => Raise OverflowError
  | S754_nan => Raise ValueError
  end.

Definition b64_of_int (n : Z) : res float :=
  match binary_normalize prec emax n 0 false with
  | S754_infinity _ => Raise OverflowError
  | sf => Ok (SF2Prim sf)
  end.

#[export] Instance binary64 : PyFloat float := {|
  f0 := 0%float;
  f1 := 1%float;
  f12 := 12%float;
  f100 := 100%float;
  fadd := PrimFloat.add;
  fsub := PrimFloat.sub;
  fmul := PrimFloat.mul;
  fdiv := PrimFloat.div;
  feqb := PrimFloat.eqb;
  fltb := PrimFloat.ltb;
  fleb := PrimFloat.leb;
  fisnan := PrimFloat.is_nan;
  fceil := b64_ceil;
  fof_int := b64_of_int
|}.

(** *** Exact rationals *)

Definition Qc_eqb (x y : Qc) : bool := Qeq_bool x y.
Definition Qc_leb (x y : Qc) : bool := Qle_bool x y.
Definition Qc_ltb (x y : Qc) : bool := negb (Qle_bool y x).
Definition Qc_of_Z (n : Z) : Qc := Q2Qc (inject_Z n).
Definition Qc_ceil (x : Qc) : Z := Zceil_div (Qnum x) (Zpos (Qden x)).

#[export] Instance exact : PyFloat Qc := {|
  f0 := Qc_of_Z 0;
  f1 := Qc_of_Z 1;
  f12 := Qc_of_Z 12;
  f100 := Qc_of_Z 100;
  fadd := Qcplus;
  fsub := Qcminus;
  fmul := Qcmult;
  fdiv := Qcdiv;
  feqb := Qc_eqb;
  fltb := Qc_ltb;
  fleb := Qc_leb;
  fisnan := fun _ => false;
  fceil := fun x => Ok (Qc_ceil x);
  fof_int := fun n => Ok (Qc_of_Z n)
|}.

(** ** tools/pf_calcs.py *)

Section PfCalcs.

Context {F : Type} {PF : PyFloat F}.

Local Open Scope py_scope.

(** [float(x or 0.0)] for a float [x]: a float is falsy when it equals zero
    ([-0.0] included; NaN is truthy). *)
Definition to_float (x : F) : F := if x =? f0 then f0 else x.

(** [float(d.get(key, 0.0) or 0.0)]: an absent key and [None] give [0.0]. *)
Definition to_float_opt (o : option F) : F :=
  match o with
  | Some x => to_float x
  | None => f0
  end.

(** [a / b]: Python raises when the divisor is zero. *)
Definition pydiv (a b : F) : res F :=
  if b =? f0 then Raise ZeroDivisionError else Ok (fdiv a b).

Notation "x / y" := (pydiv x y) : py_scope.

(** The builtin [max(a, b)]: [b] when [b > a], else [a]. *)
Definition pymax (a b : F) : F := if b >? a then b else a.

Inductive Status : Set :=
| paid_off
| no_payment
| non_amortizing
| too_long.

Definition Status_eqb (s t : Status) : bool :=
  match s, t with
  | paid_off, paid_off
  | no_payment, no_payment
  | non_amortizing, non_amortizing
  | too_long, too_long => true
  | _, _ => false
  end.

(** The dict [_estimate_debt_payoff] returns; [None] is Python's [None]. *)
Record PayoffEstimate : Type := mkEstimate {
  status : Status;
  months : option Z;
  total_interest : option F;
  monthly_interest : F;
  min_payment_to_amortize : F;
  reason : option string
}.

Definition str_of_int (n : Z) : string := NilZero.string_of_int (Z.to_int n).

(** One pass through the body of the [while] loop: either the early
    [return] or the updated [(b, total_interest, months)]. *)
Definition loop_body (monthly_rate payment b total_interest : F) (months : Z)
  : PayoffEstimate + (F * F * Z) :=
  let interest := b * monthly_rate in
  let principal := payment - interest in
  if principal <=? f0 then
    inl {| status := non_amortizing;
           months := None;
           total_interest := None;
           monthly_interest := interest;
           min_payment_to_amortize := interest + f1;
           reason := Some "Payment doesn't reduce principal."%string |}
  else
    inr (b - principal, total_interest + interest, (months + 1)%Z).

(** How the [while] loop is left. *)
Inductive LoopExit : Type :=
| Returned (e : PayoffEstimate)
| Finished (b total_interest : F) (months : Z).

(** [while b > 0 and months < max_months].  [months] counts up from 0 by
    one, so [months < max_months] holds exactly while [remaining], the
    number [max_months - months] of passes left, is not zero. *)
Fixpoint amortize (monthly_rate payment : F) (remaining : nat)
  (b total_interest : F) (months : Z) : LoopExit :=
  match remaining with
  | O => Finished b total_interest months
  | S remaining' =>
      if b >? f0 then
        match loop_body monthly_rate payment b total_interest months with
        | inl e => Returned e
        | inr (b', total_interest', months') =>
            amortize monthly_rate payment remaining' b' total_interest' months'
        end
      else Finished b total_interest months
  end.

Definition _estimate_debt_payoff (balance apr_pct payment : F) (max_months : Z)
  : res PayoffEstimate :=
  let balance := to_float balance in
  let apr_pct := to_float apr_pct in
  let payment := to_float payment in
  if balance <=? f0 then
    Ok {| status := paid_off; months := Some 0%Z; total_interest := Some f0;
          monthly_interest := f0; min_payment_to_amortize := f0;
          reason := None |}
  else
    r <- pymax apr_pct f0 / f100 ;;
    monthly_rate <- r / f12 ;;
    let monthly_interest :=
      if monthly_rate >? f0 then balance * monthly_rate else f0 in
    if payment <=? f0 then
      Ok {| status := no_payment;
            months := None;
            total_interest := None;
            monthly_interest := monthly_interest;
            min_payment_to_amortize :=
              if monthly_rate >? f0 then monthly_interest + f1 else f0;
            reason := Some "No monthly payment entered."%string |}
    else if monthly_rate <=? f0 then
      q <- balance / payment ;;
      months <- fceil q ;;
      Ok {| status := paid_off;
            months := Some months;
            total_interest := Some f0;
            monthly_interest := f0;
            min_payment_to_amortize := f0;
            reason := None |}
    else if payment <=? monthly_interest then
      let min_payment := monthly_interest + f1 in
      Ok {| status := non_amortizing;
            months := None;
            total_interest := None;
            monthly_interest := monthly_interest;
            min_payment_to_amortize := min_payment;
            reason := Some "Payment is less than (or equal to) monthly interest, so the balance will grow."%string |}
    else
      match amortize monthly_rate payment (Z.to_nat max_months) balance f0 0%Z with
      | Returned e => Ok e
      | Finished b total_interest months =>
          if b >? f0 then
            Ok {| status := too_long;
                  months := None;
                  total_interest := Some total_interest;
                  monthly_interest := monthly_interest;
                  min_payment_to_amortize := monthly_interest + f1;
                  reason := Some ("Not paid off within " ++ str_of_int max_months ++ " months.")%string |}
          else
            Ok {| status := paid_off;
                  months := Some months;
                  total_interest := Some total_interest;
                  monthly_interest := monthly_interest;
                  min_payment_to_amortize := monthly_interest + f1;
                  reason := None |}
      end.

(** *** The amortization loop, observed *)

(** The monthly rate [max(apr_pct, 0.0) / 100.0 / 12.0] of the coerced
    [apr_pct]; neither divisor is zero. *)
Definition monthly_rate_of (apr_pct : F) : F :=
  fdiv (fdiv (pymax (to_float apr_pct) f0) f100) f12.

(** The balances the loop sees: [b] at each evaluation of its condition,
    by the recursion of [amortize]. *)
Fixpoint balances (monthly_rate payment : F) (remaining : nat)
  (b total_interest : F) (months : Z) : list F :=
  b ::
  match remaining with
  | O => []
  | S remaining' =>
      if b >? f0 then
        match loop_body monthly_rate payment b total_interest months with
        | inl _ => []
        | inr (b', total_interest', months') =>
            balances monthly_rate payment remaining' b' total_interest' months'
        end
      else []
  end.

Fixpoint strictly_decreasing (l : list F) : bool :=
  match l with
  | x :: (y :: _) as l' => (y <? x) && strictly_decreasing l'
  | _ => true
  end.

(** The condition under which the loop is claimed to make progress:
    balance > 0, apr > 0 and payment above the initial monthly interest. *)
Definition amortizing (balance apr_pct payment : F) : bool :=
  (balance >? f0) && (apr_pct >? f0)
  && (payment >? balance * monthly_rate_of apr_pct).




(** *** compute_metrics *)

(** A row of an income, expense, contribution, asset or liability table:
    its label, the amount column that is summed, and free-text notes. *)
Record Row : Type := mkRow {
  Label : string;
  Amount : F;
  Notes : string
}.

(** A row of the debt table, with the columns "Debt", "Balance", "APR %"
    and "Monthly Payment". *)
Record DebtRow : Type := mkDebtRow {
  Debt : string;
  Balance : F;
  APR : F;
  MonthlyPayment : F;
  DebtNotes : string
}.

(** What [compute_metrics] reads from [st.session_state]; a setting is
    [None] when its key is absent. *)
Record SessionState : Type := mkSession {
  pf_income_df : list Row;
  pf_fixed_df : list Row;
  pf_essential_df : list Row;
  pf_nonessential_df : list Row;
  pf_saving_df : list Row;
  pf_investing_df : list Row;
  pf_debt_df : list DebtRow;
  pf_assets_df : list Row;
  pf_liabilities_df : list Row;
  pf_manual_taxes : option F;
  pf_manual_retirement : option F;
  pf_manual_benefits : option F;
  pf_manual_other_ssi : option F;
  pf_manual_match : option F;
  pf_use_paycheck_breakdown : option bool
}.

(** The session with another value for the company match. *)
Definition set_manual_match (st : SessionState) (x : option F) : SessionState :=
  {| pf_income_df := pf_income_df st;
     pf_fixed_df := pf_fixed_df st;
     pf_essential_df := pf_essential_df st;
     pf_nonessential_df := pf_nonessential_df st;
     pf_saving_df := pf_saving_df st;
     pf_investing_df := pf_investing_df st;
     pf_debt_df := pf_debt_df st;
     pf_assets_df := pf_assets_df st;
     pf_liabilities_df := pf_liabilities_df st;
     pf_manual_taxes := pf_manual_taxes st;
     pf_manual_retirement := pf_manual_retirement st;
     pf_manual_benefits := pf_manual_benefits st;
     pf_manual_other_ssi := pf_manual_other_ssi st;
     pf_manual_match := x;
     pf_use_paycheck_breakdown := pf_use_paycheck_breakdown st |}.

(** [.fillna(0)] on a numeric cell. *)
Definition fillna (x : F) : F := if fisnan x then f0 else x.

(** Modelled from the spec: [sum_df] of tools/pf_state.py, which is not
    among the sources.  "sum(rows, field): sum of numeric field across
    rows; empty/missing collection gives 0.0; non-numeric/missing values
    in a row coerce to 0.0 (never fail)".  The cells are added from 0.0 in
    row order, as the sibling [_sum_df] of tools/finance_dashboard.py does
    with [.fillna(0).sum()]. *)
Definition sum_df {R : Type} (df : list R) (col : R -> F) : F :=
  fold_left (fun acc r => acc + fillna (col r)) df f0.

(** The sum of a list in the arithmetic of the code: from 0.0, in order. *)
Definition fsum (l : list F) : F :=
  fold_left fadd l f0.

(** An entry of [payoff_rows]. *)
Record PayoffRow : Type := mkPayoffRow {
  row_Debt : string;
  row_balance : F;
  row_apr_pct : F;
  row_payment : F;
  row_status : Status;
  row_reason : option string;
  row_monthly_interest : F;
  row_min_payment_to_amortize : F;
  row_months : option Z;
  row_years : option F;
  row_total_interest : option F;
  row_payoff_date : option string
}.

(** The dict [compute_metrics] returns. *)
Record Metrics : Type := mkMetrics {
  income_df : list Row;
  fixed_df : list Row;
  essential_df : list Row;
  nonessential_df : list Row;
  saving_df : list Row;
  investing_df : list Row;
  debt_df : list DebtRow;
  assets_df : list Row;
  liabilities_df : list Row;
  total_income : F;
  net_income : F;
  manual_deductions_total : F;
  est_tax : F;
  fixed_total : F;
  essential_total : F;
  nonessential_total : F;
  expenses_total : F;
  saving_total : F;
  investing_total : F;
  investing_cashflow : F;
  investing_display : F;
  total_monthly_debt_payments : F;
  total_outflow : F;
  remaining : F;
  has_debt : bool;
  total_assets : F;
  total_liabilities : F;
  net_worth : F;
  employee_retirement : F;
  company_match : F;
  total_retirement_contrib : F;
  investing_rate_of_gross : option F;
  investing_rate_of_net : option F;
  debt_minimums : F;
  emergency_minimum_monthly : F;
  needs_pct : option F;
  wants_pct : option F;
  save_invest_pct : option F;
  unallocated_pct : option F;
  variable_for_visuals : list (Row * string);
  total_debt_balance : F;
  debt_weighted_apr : option F;
  debt_payoff_rows : list PayoffRow;
  debt_has_non_amortizing : bool;
  debt_overall_months : option Z;
  debt_overall_interest : option F;
  debt_overall_payoff_date : option string;
  debt_burden_pct : option F
}.

(** [(pd.Timestamp.today().normalize() + pd.DateOffset(months=n)).strftime("%b %Y")]:
    pandas and the clock are outside the repository, so the formatted date
    is a parameter; pandas raises when the date leaves its range. *)
Variable payoff_date_after : Z -> res string.

(** [s.strip()], on the ASCII white space. *)
Definition is_space (c : Ascii.ascii) : bool :=
  let n := Ascii.nat_of_ascii c in
  ((9 <=? n) && (n <=? 13) || (28 <=? n) && (n <=? 32))%nat.

Fixpoint lstrip (s : string) : string :=
  match s with
  | String c s' => if is_space c then lstrip s' else s
  | EmptyString => EmptyString
  end.

Fixpoint rstrip (s : string) : string :=
  match s with
  | String c s' =>
      match rstrip s' with
      | EmptyString => if is_space c then EmptyString else String c EmptyString
      | t => String c t
      end
  | EmptyString => EmptyString
  end.

Definition strip (s : string) : string := rstrip (lstrip s).

(** [(x / y) * 100 if y > 0 else None] *)
Definition pct_of (x y : F) : res (option F) :=
  if y >? f0 then q <- x / y ;; Ok (Some (q * f100)) else Ok None.

(** Lines 186-191 (and lines 399-404 of tools/finance_dashboard.py): the
    needs / wants / save-invest split, as
    [(needs_pct, wants_pct, save_invest_pct, unallocated_pct)]. *)
Definition needs_wants_save_split
  (net_income needs_total wants_total save_invest_total : F)
  : res (option F * option F * option F * option F) :=
  if net_income >? f0 then
    q1 <- needs_total / net_income ;;
    let needs_pct := q1 * f100 in
    q2 <- wants_total / net_income ;;
    let wants_pct := q2 * f100 in
    q3 <- save_invest_total / net_income ;;
    let save_invest_pct := q3 * f100 in
    let unallocated_pct :=
      pymax f0 (f100 - ((needs_pct + wants_pct) + save_invest_pct)) in
    Ok (Some needs_pct, Some wants_pct, Some save_invest_pct,
        Some unallocated_pct)
  else Ok (None, None, None, None).

(** Lines 196-204: the weighted APR. *)
Definition weighted_apr_of (debt_df : list DebtRow) (total_debt_balance : F)
  : res (option F) :=
  if total_debt_balance >? f0 then
    let num :=
      fold_left
        (fun num row =>
           let bal := to_float (Balance row) in
           let apr := to_float (APR row) in
           num + bal * apr)
        debt_df f0 in
    if total_debt_balance >? f0 then
      w <- num / total_debt_balance ;; Ok (Some w)
    else Ok None
  else Ok None.

Definition status_in_unpayable (s : Status) : bool :=
  match s with
  | non_amortizing | no_payment | too_long => true
  | paid_off => false
  end.

(** Lines 209-248: one pass of the loop over the debt rows, from
    [(payoff_rows, has_non_amortizing)] to their new values. *)
Definition payoff_row_step (row : DebtRow)
  (payoff_rows : list PayoffRow) (has_non_amortizing : bool)
  : res (list PayoffRow * bool) :=
  let name :=
    match strip (Debt row) with
    | EmptyString => "Debt"%string
    | s => s
    end in
  let bal := to_float (Balance row) in
  let apr := to_float (APR row) in
  let pay := to_float (MonthlyPayment row) in
  est <- _estimate_debt_payoff bal apr pay 600 ;;
  if bal <=? f0 then Ok (payoff_rows, has_non_amortizing)
  else
    let status := status est in
    let has_non_amortizing :=
      if status_in_unpayable status then true else has_non_amortizing in
    let months := months est in
    payoff_date <-
      match months with
      | Some n =>
          if (0 <? n)%Z then d <- payoff_date_after n ;; Ok (Some d)
          else if (n =? 0)%Z then Ok (Some "Now"%string)
          else Ok None
      | None => Ok None
      end ;;
    years <-
      match months with
      | Some n => x <- fof_int n ;; y <- x / f12 ;; Ok (Some y)
      | None => Ok None
      end ;;
    Ok (payoff_rows ++
          [ {| row_Debt := name;
               row_balance := bal;
               row_apr_pct := apr;
               row_payment := pay;
               row_status := status;
               row_reason := reason est;
               row_monthly_interest := to_float (monthly_interest est);
               row_min_payment_to_amortize :=
                 to_float (min_payment_to_amortize est);
               row_months := months;
               row_years := years;
               row_total_interest := total_interest est;
               row_payoff_date := payoff_date |} ],
        has_non_amortizing).

Fixpoint payoff_loop (debt_df : list DebtRow)
  (payoff_rows : list PayoffRow) (has_non_amortizing : bool)
  : res (list PayoffRow * bool) :=
  match debt_df with
  | [] => Ok (payoff_rows, has_non_amortizing)
  | row :: rest =>
      st <- payoff_row_step row payoff_rows has_non_amortizing ;;
      payoff_loop rest (fst st) (snd st)
  end.

(** A debt row is kept when its coerced balance is not <= 0. *)
Definition kept_debt (row : DebtRow) : bool :=
  negb (to_float (Balance row) <=? f0).

(** What an entry of [payoff_rows] carries over from its debt row and from
    the estimate of that debt. *)
Definition payoff_row_of (row : DebtRow) (r : PayoffRow) : Prop :=
  exists est,
    _estimate_debt_payoff (to_float (Balance row)) (to_float (APR row))
      (to_float (MonthlyPayment row)) 600 = Ok est
    /\ row_balance r = to_float (Balance row)
    /\ row_apr_pct r = to_float (APR row)
    /\ row_payment r = to_float (MonthlyPayment row)
    /\ row_status r = status est
    /\ row_months r = months est
    /\ row_total_interest r = total_interest est
    /\ row_reason r = reason est.

(** Lines 250-272: the overall estimate, as
    [(overall_months, overall_interest, overall_payoff_date)]. *)
Definition overall_estimate (has_non_amortizing : bool)
  (total_debt_balance total_monthly_debt_payments : F)
  (weighted_apr : option F)
  : res (option Z * option F * option string) :=
  match weighted_apr with
  | Some w =>
      if negb has_non_amortizing
         && (total_debt_balance >? f0)
         && (total_monthly_debt_payments >? f0)
      then
        overall_est <-
          _estimate_debt_payoff total_debt_balance w
            total_monthly_debt_payments 600 ;;
        if Status_eqb (status overall_est) paid_off then
          let overall_months := months overall_est in
          let overall_interest := total_interest overall_est in
          match overall_months with
          | Some n =>
              d <- payoff_date_after n ;;
              Ok (overall_months, overall_interest, Some d)
          | None => Ok (overall_months, overall_interest, None)
          end
        else Ok (None, None, None)
      else Ok (None, None, None)
  | None => Ok (None, None, None)
  end.

(** Lines 274-277: the debt burden. *)
Definition debt_burden (net_income total_monthly_debt_payments : F)
  : res (option F) :=
  if (net_income >? f0) && (total_monthly_debt_payments >? f0) then
    q <- total_monthly_debt_payments / net_income ;; Ok (Some (q * f100))
  else Ok None.

Definition compute_metrics (st : SessionState) : res Metrics :=
  let income_df := pf_income_df st in
  let fixed_df := pf_fixed_df st in
  let essential_df := pf_essential_df st in
  let nonessential_df := pf_nonessential_df st in
  let saving_df := pf_saving_df st in
  let investing_df := pf_investing_df st in
  let debt_df := pf_debt_df st in
  let assets_df := pf_assets_df st in
  let liabilities_df := pf_liabilities_df st in
  (* Income / deductions *)
  let total_income := sum_df income_df Amount in
  let manual_taxes := to_float_opt (pf_manual_taxes st) in
  let manual_retirement := to_float_opt (pf_manual_retirement st) in
  let manual_benefits := to_float_opt (pf_manual_benefits st) in
  let manual_other_ssi := to_float_opt (pf_manual_other_ssi st) in
  let employer_match := to_float_opt (pf_manual_match st) in
  let manual_deductions_total :=
    ((manual_taxes + manual_retirement) + manual_benefits) + manual_other_ssi in
  let use_breakdown :=
    match pf_use_paycheck_breakdown st with Some b => b | None => false end in
  let net_income :=
    if use_breakdown then total_income - manual_deductions_total
    else total_income in
  let est_tax := f0 in
  (* Expenses / saving / investing *)
  let fixed_total := sum_df fixed_df Amount in
  let essential_total := sum_df essential_df Amount in
  let nonessential_total := sum_df nonessential_df Amount in
  let expenses_total := (fixed_total + essential_total) + nonessential_total in
  let saving_total := sum_df saving_df Amount in
  let investing_total := sum_df investing_df Amount in
  let investing_cashflow := investing_total in
  let investing_display :=
    (investing_total + manual_retirement) + employer_match in
  let total_monthly_debt_payments := sum_df debt_df MonthlyPayment in
  let total_saving_and_investing_cashflow :=
    saving_total + investing_cashflow in
  let total_outflow :=
    (expenses_total + total_saving_and_investing_cashflow)
    + total_monthly_debt_payments in
  let remaining := net_income - total_outflow in
  let has_debt := total_monthly_debt_payments >? f0 in
  (* Net worth *)
  let total_assets := sum_df assets_df Amount in
  let total_liabilities := sum_df liabilities_df Amount in
  let net_worth := total_assets - total_liabilities in
  let employee_retirement := to_float_opt (pf_manual_retirement st) in
  let company_match := to_float_opt (pf_manual_match st) in
  let total_retirement_contrib := employee_retirement + company_match in
  investing_rate_of_gross <- pct_of investing_display total_income ;;
  investing_rate_of_net <- pct_of investing_display net_income ;;
  (* Emergency minimum / 50-30-20-ish split *)
  let debt_minimums := total_monthly_debt_payments in
  let emergency_minimum_monthly :=
    (fixed_total + essential_total) + debt_minimums in
  let needs_total := emergency_minimum_monthly in
  let wants_total := nonessential_total in
  let save_invest_total := saving_total + investing_cashflow in
  split <-
    needs_wants_save_split net_income needs_total wants_total
      save_invest_total ;;
  let '(needs_pct, wants_pct, save_invest_pct, unallocated_pct) := split in
  (* Debt payoff stats *)
  let total_debt_balance := sum_df debt_df Balance in
  weighted_apr <- weighted_apr_of debt_df total_debt_balance ;;
  rows <- payoff_loop debt_df [] false ;;
  let '(payoff_rows, has_non_amortizing) := rows in
  overall <-
    overall_estimate has_non_amortizing total_debt_balance
      total_monthly_debt_payments weighted_apr ;;
  let '(overall_months, overall_interest, overall_payoff_date) := overall in
  debt_burden_pct <- debt_burden net_income total_monthly_debt_payments ;;
  (* Variable df for visuals *)
  let variable_for_visuals :=
    map (fun r => (r, "Essential"%string)) essential_df
    ++ map (fun r => (r, "Non-Essential"%string)) nonessential_df in
  Ok {| income_df := income_df;
        fixed_df := fixed_df;
        essential_df := essential_df;
        nonessential_df := nonessential_df;
        saving_df := saving_df;
        investing_df := investing_df;
        debt_df := debt_df;
        assets_df := assets_df;
        liabilities_df := liabilities_df;
        total_income := total_income;
        net_income := net_income;
        manual_deductions_total := manual_deductions_total;
        est_tax := est_tax;
        fixed_total := fixed_total;
        essential_total := essential_total;
        nonessential_total := nonessential_total;
        expenses_total := expenses_total;
        saving_total := saving_total;
        investing_total := investing_total;
        investing_cashflow := investing_cashflow;
        investing_display := investing_display;
        total_monthly_debt_payments := total_monthly_debt_payments;
        total_outflow := total_outflow;
        remaining := remaining;
        has_debt := has_debt;
        total_assets := total_assets;
        total_liabilities := total_liabilities;
        net_worth := net_worth;
        employee_retirement := employee_retirement;
        company_match := company_match;
        total_retirement_contrib := total_retirement_contrib;
        investing_rate_of_gross := investing_rate_of_gross;
        investing_rate_of_net := investing_rate_of_net;
        debt_minimums := debt_minimums;
        emergency_minimum_monthly := emergency_minimum_monthly;
        needs_pct := needs_pct;
        wants_pct := wants_pct;
        save_invest_pct := save_invest_pct;
        unallocated_pct := unallocated_pct;
        variable_for_visuals := variable_for_visuals;
        total_debt_balance := total_debt_balance;
        debt_weighted_apr := weighted_apr;
        debt_payoff_rows := payoff_rows;
        debt_has_non_amortizing := has_non_amortizing;
        debt_overall_months := overall_months;
        debt_overall_interest := overall_interest;
        debt_overall_payoff_date := overall_payoff_date;
        debt_burden_pct := debt_burden_pct |}.

End PfCalcs.

Local Open Scope py_scope.

(** ** tools/finance_dashboard.py *)

(** The helpers of the dashboard page and the calculations it makes before
    it draws anything (lines 323-404 of [render_personal_finance_dashboard]).
    Labels and keywords are ASCII text: [lower()] is modelled on the letters
    A-Z and [\s] on the ASCII whitespace, as [strip] above. *)

Module Dashboard.

Section Calcs.

Context {F : Type} {PF : PyFloat F}.

(** [_sum_df], lines 29-32: 0.0 for a table that is [None] or empty, and
    otherwise the sum of the column, a cell that is not a number counting
    as 0.  The cells are added from 0.0 in row order; pandas may add a long
    column in another order, which exact arithmetic does not see. *)
Definition _sum_df {R : Type} (df : option (list R)) (col : R -> F) : F :=
  match df with
  | None => f0
  | Some [] => f0
  | Some rows => fold_left (fun acc r => acc + fillna (col r)) rows f0
  end.

(** [c.lower()] on an ASCII character. *)
Definition lower_char (c : Ascii.ascii) : Ascii.ascii :=
  let n := Ascii.nat_of_ascii c in
  if ((65 <=? n) && (n <=? 90))%nat then Ascii.ascii_of_nat (n + 32) else c.

(** The space character. *)
Definition space : Ascii.ascii := Ascii.ascii_of_nat 32.

Fixpoint lower (s : string) : string :=
  match s with
  | String c s' => String (lower_char c) (lower s')
  | EmptyString => EmptyString
  end.

(** [re.sub(r"\s+", " ", s)]: every maximal run of whitespace becomes one
    space.  [in_run] tells that the character before was whitespace. *)
Fixpoint sub_spaces (in_run : bool) (s : string) : string :=
  match s with
  | String c s' =>
      if is_space c then
        if in_run then sub_spaces true s'
        else String space (sub_spaces true s')
      else String c (sub_spaces false s')
  | EmptyString => EmptyString
  end.

(** [_norm], lines 56-57; a missing label is the empty string, by
    [str(s or "")]. *)
Definition _norm (s : string) : string :=
  sub_spaces false (lower (strip s)).

(** [k in name] *)
Fixpoint str_in (k name : string) : bool :=
  prefix k name
  || match name with
     | String _ name' => str_in k name'
     | EmptyString => false
     end.

(** [_sum_by_keywords], lines 60-73, on the columns "Expense" and
    "Monthly Amount" of the table. *)
Definition _sum_by_keywords (df : option (list Row)) (keywords : list string)
  : F :=
  match df with
  | None => f0
  | Some [] => f0
  | Some rows =>
      let keys := map lower keywords in
      fold_left
        (fun total row =>
           let name := _norm (Label row) in
           let amt := fillna (Amount row) in
           if existsb (fun k => str_in k name) keys then total + amt
           else total)
        rows f0
  end.

Definition ESSENTIAL_VARIABLE_KEYWORDS : list string :=
  [ "grocery"; "groceries";
    "electric"; "electricity"; "natural gas"; "water"; "sewer"; "trash";
    "garbage";
    "utility"; "utilities";
    "internet"; "wifi"; "phone"; "cell";
    "insurance"; "medical"; "health"; "prescription"; "rx"; "medicine"
  ]%string.

(** What the calculations read from [st.session_state], after [_ensure_df]
    has put a table under every table key. *)
Record State : Type := mkState {
  pf_income_df : list (Row (F:=F));
  pf_fixed_df : list (Row (F:=F));
  pf_variable_df : list (Row (F:=F));
  pf_saving_df : list (Row (F:=F));
  pf_investing_df : list (Row (F:=F));
  pf_debt_df : list (DebtRow (F:=F));
  pf_assets_df : list (Row (F:=F));
  pf_liabilities_df : list (Row (F:=F));
  pf_manual_taxes : option F;
  pf_manual_retirement : option F;
  pf_manual_benefits : option F;
  pf_manual_other_ssi : option F;
  pf_manual_match : option F;
  pf_use_gross_breakdown : option bool
}.

(** The local variables of the calculations. *)
Record Calcs : Type := mkCalcs {
  total_income : F;
  manual_deductions_total : F;
  net_income : F;
  est_tax : F;
  fixed_total : F;
  variable_total : F;
  expenses_total : F;
  saving_total : F;
  investing_total : F;
  investing_cashflow : F;
  investing_display : F;
  total_monthly_debt_payments : F;
  total_saving_and_investing_cashflow : F;
  total_outflow : F;
  remaining : F;
  has_debt : bool;
  total_assets : F;
  total_liabilities : F;
  net_worth : F;
  employee_retirement : F;
  company_match : F;
  total_retirement_contrib : F;
  investing_rate_of_gross : option F;
  investing_rate_of_net : option F;
  essential_variable : F;
  debt_minimums : F;
  emergency_minimum_monthly : F;
  needs_total : F;
  wants_total : F;
  save_invest_total : F;
  unallocated_total : F;
  needs_pct : option F;
  wants_pct : option F;
  save_invest_pct : option F;
  unallocated_pct : option F
}.

(** Lines 323-404. *)
Definition calculations (st : State) : res Calcs :=
  let use_paycheck_breakdown :=
    match pf_use_gross_breakdown st with Some b => b | None => false end in
  let income_df := pf_income_df st in
  let fixed_df := pf_fixed_df st in
  let variable_df := pf_variable_df st in
  let saving_df := pf_saving_df st in
  let investing_df := pf_investing_df st in
  let debt_df := pf_debt_df st in
  let assets_df := pf_assets_df st in
  let liabilities_df := pf_liabilities_df st in
  let total_income := _sum_df (Some income_df) Amount in
  let manual_taxes := to_float_opt (pf_manual_taxes st) in
  let manual_retirement := to_float_opt (pf_manual_retirement st) in
  let manual_benefits := to_float_opt (pf_manual_benefits st) in
  let manual_other_ssi := to_float_opt (pf_manual_other_ssi st) in
  let employer_match := to_float_opt (pf_manual_match st) in
  let manual_deductions_total :=
    ((manual_taxes + manual_retirement) + manual_benefits) + manual_other_ssi in
  let net_income :=
    if use_paycheck_breakdown then total_income - manual_deductions_total
    else total_income in
  let est_tax := f0 in
  let fixed_total := _sum_df (Some fixed_df) Amount in
  let variable_total := _sum_df (Some variable_df) Amount in
  let expenses_total := fixed_total + variable_total in
  let saving_total := _sum_df (Some saving_df) Amount in
  let investing_total := _sum_df (Some investing_df) Amount in
  let investing_cashflow := investing_total in
  let investing_display :=
    (investing_total + manual_retirement) + employer_match in
  let total_monthly_debt_payments := _sum_df (Some debt_df) MonthlyPayment in
  let total_saving_and_investing_cashflow :=
    saving_total + investing_cashflow in
  let total_outflow :=
    (expenses_total + total_saving_and_investing_cashflow)
    + total_monthly_debt_payments in
  let remaining := net_income - total_outflow in
  let has_debt := total_monthly_debt_payments >? f0 in
  let total_assets := _sum_df (Some assets_df) Amount in
  let total_liabilities := _sum_df (Some liabilities_df) Amount in
  let net_worth := total_assets - total_liabilities in
  let employee_retirement := to_float_opt (pf_manual_retirement st) in
  let company_match := to_float_opt (pf_manual_match st) in
  let total_retirement_contrib := employee_retirement + company_match in
  investing_rate_of_gross <- pct_of investing_display total_income ;;
  investing_rate_of_net <- pct_of investing_display net_income ;;
  (* Emergency minimum + needs/wants/save split *)
  let essential_variable :=
    _sum_by_keywords (Some variable_df) ESSENTIAL_VARIABLE_KEYWORDS in
  let debt_minimums := total_monthly_debt_payments in
  let emergency_minimum_monthly :=
    (fixed_total + essential_variable) + debt_minimums in
  let needs_total := emergency_minimum_monthly in
  let wants_total := pymax (variable_total - essential_variable) f0 in
  let save_invest_total := saving_total + investing_cashflow in
  let unallocated_total := pymax remaining f0 in
  split <-
    needs_wants_save_split net_income needs_total wants_total
      save_invest_total ;;
  let '(needs_pct, wants_pct, save_invest_pct, unallocated_pct) := split in
  Ok {| total_income := total_income;
        manual_deductions_total := manual_deductions_total;
        net_income := net_income;
        est_tax := est_tax;
        fixed_total := fixed_total;
        variable_total := variable_total;
        expenses_total := expenses_total;
        saving_total := saving_total;
        investing_total := investing_total;
        investing_cashflow := investing_cashflow;
        investing_display := investing_display;
        total_monthly_debt_payments := total_monthly_debt_payments;
        total_saving_and_investing_cashflow :=
          total_saving_and_investing_cashflow;
        total_outflow := total_outflow;
        remaining := remaining;
        has_debt := has_debt;
        total_assets := total_assets;
        total_liabilities := total_liabilities;
        net_worth := net_worth;
        employee_retirement := employee_retirement;
        company_match := company_match;
        total_retirement_contrib := total_retirement_contrib;
        investing_rate_of_gross := investing_rate_of_gross;
        investing_rate_of_net := investing_rate_of_net;
        essential_variable := essential_variable;
        debt_minimums := debt_minimums;
        emergency_minimum_monthly := emergency_minimum_monthly;
        needs_total := needs_total;
        wants_total := wants_total;
        save_invest_total := save_invest_total;
        unallocated_total := unallocated_total;
        needs_pct := needs_pct;
        wants_pct := wants_pct;
        save_invest_pct := save_invest_pct;
        unallocated_pct := unallocated_pct |}.

End Calcs.

End Dashboard.

(** ** The weighted mean, in exact arithmetic *)

(** The sum of a list of rationals. *)
Definition Qc_sum (l : list Qc) : Qc := fold_right Qcplus (Qc_of_Z 0) l.

(** The balance-weighted mean of the APRs: sum of balance_i * apr_i over
    the sum of balance_i. *)
Definition weighted_mean_apr (rows : list (DebtRow (F:=Qc))) : Qc :=
  (Qc_sum (map (fun r => Balance r * APR r) rows)
   / Qc_sum (map Balance rows))%Qc.

(** ** Sessions used as examples *)

Local Open Scope float_scope.

(** A stand-in for the formatted date: the number of months from today. *)
Definition months_from_today (n : Z) : res string :=
  Ok ("today + " ++ str_of_int n ++ " months")%string.

(** Income 5000 with 1000 of taxes withheld, outflows of 3300, and two
    debts: 1000 at 10% paying 100, 3000 at 20% paying 200. *)
Definition example_session : SessionState (F:=float) :=
  {| pf_income_df := [mkRow "Salary" 5000 ""];
     pf_fixed_df := [mkRow "Rent" 1500 ""];
     pf_essential_df := [mkRow "Groceries" 600 ""];
     pf_nonessential_df := [mkRow "Dining" 400 ""];
     pf_saving_df := [mkRow "Emergency fund" 300 ""];
     pf_investing_df := [mkRow "Brokerage" 200 ""];
     pf_debt_df := [mkDebtRow "Card" 1000 10 100 "";
                    mkDebtRow "Car" 3000 20 200 ""];
     pf_assets_df := [mkRow "Savings" 10000 ""];
     pf_liabilities_df := [mkRow "Loans" 4000 ""];
     pf_manual_taxes := Some 1000;
     pf_manual_retirement := None;
     pf_manual_benefits := None;
     pf_manual_other_ssi := None;
     pf_manual_match := Some 100;
     pf_use_paycheck_breakdown := Some true |}.



Local Close Scope float_scope.

(** The example session in exact arithmetic, with one debt: 1000 at 12%
    paying 500. *)
Definition exact_session : SessionState (F:=Qc) :=
  {| pf_income_df := [mkRow "Salary" (Qc_of_Z 5000) ""];
     pf_fixed_df := [mkRow "Rent" (Qc_of_Z 1500) ""];
     pf_essential_df := [mkRow "Groceries" (Qc_of_Z 600) ""];
     pf_nonessential_df := [mkRow "Dining" (Qc_of_Z 400) ""];
     pf_saving_df := [mkRow "Emergency fund" (Qc_of_Z 300) ""];
     pf_investing_df := [mkRow "Brokerage" (Qc_of_Z 200) ""];
     pf_debt_df :=
       [mkDebtRow "Card" (Qc_of_Z 1000) (Qc_of_Z 12) (Qc_of_Z 500) ""];
     pf_assets_df := [mkRow "Savings" (Qc_of_Z 10000) ""];
     pf_liabilities_df := [mkRow "Loans" (Qc_of_Z 4000) ""];
     pf_manual_taxes := Some (Qc_of_Z 1000);
     pf_manual_retirement := None;
     pf_manual_benefits := None;
     pf_manual_other_ssi := None;
     pf_manual_match := None;
     pf_use_paycheck_breakdown := Some true |}.

(** A dashboard state in exact arithmetic: two of the three variable
    expenses match a keyword. *)
Definition exact_dashboard_state : Dashboard.State (F:=Qc) :=
  {| Dashboard.pf_income_df := [mkRow "Salary" (Qc_of_Z 4000) ""];
     Dashboard.pf_fixed_df := [mkRow "Rent" (Qc_of_Z 1500) ""];
     Dashboard.pf_variable_df :=
       [mkRow "  Groceries " (Qc_of_Z 600) "";
        mkRow "Dining out" (Qc_of_Z 400) "";
        mkRow "CELL  phone" (Qc_of_Z 50) ""];
     Dashboard.pf_saving_df := [mkRow "Emergency fund" (Qc_of_Z 300) ""];
     Dashboard.pf_investing_df := [mkRow "Brokerage" (Qc_of_Z 200) ""];
     Dashboard.pf_debt_df :=
       [mkDebtRow "Card" (Qc_of_Z 1000) (Qc_of_Z 12) (Qc_of_Z 500) ""];
     Dashboard.pf_assets_df := [];
     Dashboard.pf_liabilities_df := [];
     Dashboard.pf_manual_taxes := None;
     Dashboard.pf_manual_retirement := None;
     Dashboard.pf_manual_benefits := None;
     Dashboard.pf_manual_other_ssi := None;
     Dashboard.pf_manual_match := None;
     Dashboard.pf_use_gross_breakdown := None |}.

(** * Properties *)

(** ** Laws of comparison shared by the two arithmetics *)

Class PyFloatLaws {F : Type} (PF : PyFloat F) : Prop := {
  flt_neq : forall a b : F,
    (a <? b) = true -> (a =? b) = false /\ (b =? a) = false;
  flt_nle : forall a b : F, (a <? b) = true -> (b <=? a) = false;
  fle_cases : forall a b : F,
    (a <=? b) = true -> (a <? b) = true \/ (a =? b) = true;
  fle_total : forall a b : F,
    (a <=? b) = false ->
    (b <? a) = true \/ fisnan a = true \/ fisnan b = true;
  fpos_trans : forall x y : F,
    (f0 <=? x) = true -> (x <? y) = true -> (f0 <? y) = true;
  fmul_pos : forall a b : F,
    (f0 <? a) = true -> (f0 <? b) = true -> (f0 <=? a * b) = true;
  f0_not_nan : fisnan f0 = false;
  f100_nonzero : (f100 =? f0) = false;
  f12_nonzero : (f12 =? f0) = false;
  zero_rate : (fdiv (fdiv f0 f100) f12 <=? f0) = true
}.

(** *** binary64 *)

Lemma SFcompare_antisym (x y : spec_float) :
  SFcompare y x = option_map CompOpp (SFcompare x y).
Proof.
  destruct x as [sx | sx | | sx mx ex], y as [sy | sy | | sy my ey]; cbn;
    try destruct sx; try destruct sy; cbn; try reflexivity.
  - rewrite (Z.compare_antisym ey ex).
    destruct (ey ?= ex)%Z; cbn; try reflexivity.
    rewrite (Pos.compare_cont_antisym mx my Eq). cbn.
    now rewrite ?CompOpp_involutive.
  - rewrite (Z.compare_antisym ey ex).
    destruct (ey ?= ex)%Z; cbn; try reflexivity.
    rewrite (Pos.compare_cont_antisym mx my Eq). cbn.
    now rewrite ?CompOpp_involutive.
Qed.

Lemma b64_ltb_compare (a b : float) :
  PrimFloat.ltb a b = true <-> SFcompare (Prim2SF a) (Prim2SF b) = Some Lt.
Proof.
  rewrite FloatAxioms.ltb_spec. unfold SFltb.
  destruct (SFcompare _ _) as [[ | | ] | ]; split; congruence.
Qed.

Lemma b64_pos_cases (x : float) :
  PrimFloat.ltb 0 x = true ->
  Prim2SF x = S754_infinity false
  \/ exists m e, Prim2SF x = S754_finite false m e.
Proof.
  rewrite FloatAxioms.ltb_spec. change (Prim2SF 0) with (S754_zero false).
  destruct (Prim2SF x) as [s | [ | ] | | [ | ] m e]; cbn;
    try discriminate; eauto.
Qed.

(** Rounding a non-negative mantissa never yields NaN and keeps the sign. *)
Lemma shr_1_nonneg mrs : (0 <= shr_m mrs)%Z -> (0 <= shr_m (shr_1 mrs))%Z.
Proof.
  destruct mrs as [m r s]. cbn. destruct m as [ | [p | p | ] | p]; cbn; lia.
Qed.

Lemma iter_pos_shr_1_nonneg p : forall mrs,
  (0 <= shr_m mrs)%Z -> (0 <= shr_m (SpecFloat.iter_pos shr_1 p mrs))%Z.
Proof.
  induction p as [p IH | p IH | ]; intros mrs H; cbn.
  - apply IH, IH, shr_1_nonneg, H.
  - apply IH, IH, H.
  - apply shr_1_nonneg, H.
Qed.

Lemma shr_fexp_nonneg prec emax m e l :
  (0 <= m)%Z -> (0 <= shr_m (fst (shr_fexp prec emax m e l)))%Z.
Proof.
  intros H. unfold shr_fexp, shr.
  assert (H0 : (0 <= shr_m (shr_record_of_loc m l))%Z)
    by (destruct l as [ | [ | | ]]; exact H).
  destruct (_ - e)%Z; cbn; auto using iter_pos_shr_1_nonneg.
Qed.

Lemma round_nearest_even_nonneg m l :
  (0 <= m)%Z -> (0 <= round_nearest_even m l)%Z.
Proof.
  intros H. destruct l as [ | [ | | ]]; cbn; try lia.
  destruct (Z.even m); lia.
Qed.

Lemma binary_round_aux_sign prec emax s m e l :
  (0 <= m)%Z ->
  match binary_round_aux prec emax s m e l with
  | S754_zero s' | S754_infinity s' | S754_finite s' _ _ => s' = s
  | S754_nan => False
  end.
Proof.
  intros H. unfold binary_round_aux.
  pose proof (shr_fexp_nonneg prec emax m e l H) as H1.
  destruct (shr_fexp prec emax m e l) as [mrs' e']. cbn [fst] in H1.
  pose proof (shr_fexp_nonneg prec emax _ e' loc_Exact
                (round_nearest_even_nonneg _ (loc_of_shr_record mrs') H1))
    as H2.
  destruct (shr_fexp prec emax _ e' loc_Exact) as [mrs'' e''].
  cbn [fst] in H2.
  destruct (shr_m mrs'') as [ | p | p]; cbn; try reflexivity.
  - destruct (e'' <=? emax - prec)%Z; reflexivity.
  - lia.
Qed.

Lemma b64_mul_pos (a b : float) :
  PrimFloat.ltb 0 a = true -> PrimFloat.ltb 0 b = true ->
  PrimFloat.leb 0 (PrimFloat.mul a b) = true.
Proof.
  intros Ha Hb. rewrite FloatAxioms.leb_spec, FloatAxioms.mul_spec.
  change (Prim2SF 0) with (S754_zero false).
  destruct (b64_pos_cases _ Ha) as [-> | (ma & ea & ->)],
           (b64_pos_cases _ Hb) as [-> | (mb & eb & ->)]; try reflexivity.
  unfold SF64mul, SFmul. cbn [xorb].
  pose proof (binary_round_aux_sign prec emax false (Z.pos (ma * mb))
                (ea + eb) loc_Exact ltac:(lia)) as H.
  destruct (binary_round_aux _ _ _ _ _ _) as [s | s | | s m e];
    cbn in H |- *; subst; try reflexivity; contradiction.
Qed.

Lemma b64_pos_trans (x y : float) :
  PrimFloat.leb 0 x = true -> PrimFloat.ltb x y = true ->
  PrimFloat.ltb 0 y = true.
Proof.
  rewrite FloatAxioms.leb_spec, !FloatAxioms.ltb_spec.
  change (Prim2SF 0) with (S754_zero false).
  destruct (Prim2SF x) as [sx | [ | ] | | [ | ] mx ex],
           (Prim2SF y) as [sy | [ | ] | | [ | ] my ey]; cbn; congruence.
Qed.

Lemma b64_le_total (a b : float) :
  PrimFloat.leb a b = false ->
  PrimFloat.ltb b a = true
  \/ PrimFloat.is_nan a = true \/ PrimFloat.is_nan b = true.
Proof.
  unfold is_nan.
  rewrite FloatAxioms.leb_spec, FloatAxioms.ltb_spec, !FloatAxioms.eqb_spec.
  unfold SFleb, SFltb, SFeqb.
  rewrite (SFcompare_antisym (Prim2SF a) (Prim2SF b)).
  destruct (Prim2SF a) as [sx | sx | | sx mx ex] eqn:Ea,
           (Prim2SF b) as [sy | sy | | sy my ey] eqn:Eb;
    try (intros _; right; left; reflexivity);
    try (intros _; right; right; reflexivity);
    rewrite <- Ea, <- Eb;
    destruct (SFcompare (Prim2SF a) (Prim2SF b)) as [[ | | ] | ] eqn:E; cbn;
    try discriminate; auto;
    rewrite Ea, Eb in E; cbn in E; discriminate.
Qed.

#[export] Instance binary64_laws : PyFloatLaws binary64.
Proof.
  split.
  - intros a b H. apply b64_ltb_compare in H. cbn.
    rewrite !FloatAxioms.eqb_spec. unfold SFeqb.
    rewrite (SFcompare_antisym (Prim2SF a) (Prim2SF b)), H. now cbn.
  - intros a b H. apply b64_ltb_compare in H. cbn.
    rewrite FloatAxioms.leb_spec. unfold SFleb.
    rewrite (SFcompare_antisym (Prim2SF a) (Prim2SF b)), H. now cbn.
  - intros a b. cbn.
    rewrite FloatAxioms.leb_spec, FloatAxioms.ltb_spec, FloatAxioms.eqb_spec.
    unfold SFleb, SFltb, SFeqb.
    destruct (SFcompare _ _) as [[ | | ] | ]; intros; auto; discriminate.
  - exact b64_le_total.
  - exact b64_pos_trans.
  - exact b64_mul_pos.
  - reflexivity.
  - reflexivity.
  - reflexivity.
  - reflexivity.
Qed.

(** *** exact rationals *)

Lemma exact_ltb_iff (a b : Qc) : (a <? b) = true <-> (a < b)%Qc.
Proof.
  cbn. unfold Qc_ltb. rewrite negb_true_iff.
  rewrite <- not_true_iff_false, Qle_bool_iff. unfold Qclt. split.
  - apply Qnot_le_lt.
  - apply Qlt_not_le.
Qed.

Lemma exact_leb_iff (a b : Qc) : (a <=? b) = true <-> (a <= b)%Qc.
Proof. cbn. unfold Qc_leb. now rewrite Qle_bool_iff. Qed.

Lemma exact_eqb_iff (a b : Qc) : (a =? b) = true <-> a = b.
Proof.
  cbn. unfold Qc_eqb. rewrite Qeq_bool_iff. split.
  - apply Qc_is_canon.
  - now intros ->.
Qed.

Lemma exact_leb_false (a b : Qc) : (a <=? b) = false <-> (b < a)%Qc.
Proof.
  rewrite <- not_true_iff_false, exact_leb_iff. split.
  - apply Qcnot_le_lt.
  - apply Qclt_not_le.
Qed.

Lemma exact_ltb_false (a b : Qc) : (a <? b) = false <-> (b <= a)%Qc.
Proof.
  rewrite <- not_true_iff_false, exact_ltb_iff. split.
  - apply Qcnot_lt_le.
  - apply Qcle_not_lt.
Qed.

(** The operations of [Qc] seen in [Q], where [lra] and [nra] decide. *)
Lemma this_plus (x y : Qc) : (this (x + y)%Qc == this x + this y)%Q.
Proof. apply Qred_correct. Qed.

Lemma this_minus (x y : Qc) : (this (x - y)%Qc == this x - this y)%Q.
Proof.
  unfold Qcminus. rewrite this_plus. unfold Qcopp. cbn [this Q2Qc].
  now rewrite Qred_correct.
Qed.

Lemma this_mult (x y : Qc) : (this (x * y)%Qc == this x * this y)%Q.
Proof. apply Qred_correct. Qed.

Lemma this_div (x y : Qc) : (this (x / y)%Qc == this x / this y)%Q.
Proof.
  unfold Qcdiv. rewrite this_mult. unfold Qcinv. cbn [this Q2Qc].
  now rewrite Qred_correct.
Qed.

Lemma this_of_Z (n : Z) : (this (Qc_of_Z n) == inject_Z n)%Q.
Proof. apply Qred_correct. Qed.

Ltac exact_props :=
  repeat match goal with
  | H : (fltb _ _) = true |- _ => apply exact_ltb_iff in H
  | H : (fleb _ _) = true |- _ => apply exact_leb_iff in H
  | H : (feqb _ _) = true |- _ => apply exact_eqb_iff in H
  | H : (fltb _ _) = false |- _ => apply exact_ltb_false in H
  | H : (fleb _ _) = false |- _ => apply exact_leb_false in H
  | |- (fltb _ _) = true => apply exact_ltb_iff
  | |- (fleb _ _) = true => apply exact_leb_iff
  | |- (feqb _ _) = true => apply exact_eqb_iff
  | |- (fltb _ _) = false => apply exact_ltb_false
  | |- (fleb _ _) = false => apply exact_leb_false
  end.

(** Turns a goal on the [exact] instance into one of [Q]. *)
Ltac qc_arith :=
  exact_props;
  cbn [f0 f1 f12 f100 fadd fsub fmul fdiv exact] in *;
  try apply Qc_is_canon;
  unfold Qclt, Qcle in *;
  repeat progress
    rewrite ?this_plus, ?this_minus, ?this_mult, ?this_div, ?this_of_Z in *;
  unfold inject_Z in *.

#[export] Instance exact_laws : PyFloatLaws exact.
Proof.
  split.
  - intros a b H. apply exact_ltb_iff in H.
    split; apply not_true_iff_false; rewrite exact_eqb_iff; intros ->;
      exact (Qclt_not_eq _ _ H eq_refl).
  - intros a b H. qc_arith. lra.
  - intros a b H. apply exact_leb_iff in H.
    destruct (Qcle_lt_or_eq _ _ H) as [Hlt | ->].
    + left. now apply exact_ltb_iff.
    + right. now apply exact_eqb_iff.
  - intros a b H. left. qc_arith. lra.
  - intros x y H1 H2. qc_arith. lra.
  - intros a b H1 H2. qc_arith. nra.
  - reflexivity.
  - reflexivity.
  - reflexivity.
  - reflexivity.
Qed.

(** ** The estimator, branch by branch *)

Section Estimator.

Context {F : Type} {PF : PyFloat F} {PL : PyFloatLaws PF}.

Lemma to_float_pos (x : F) : (x >? f0) = true -> to_float x = x.
Proof.
  intros H. unfold to_float. now rewrite (proj2 (flt_neq _ _ H)).
Qed.

Lemma to_float_neg (x : F) : (x <? f0) = true -> to_float x = x.
Proof.
  intros H. unfold to_float. now rewrite (proj1 (flt_neq _ _ H)).
Qed.

Lemma pydiv_pos (a b : F) : (b >? f0) = true -> pydiv a b = Ok (fdiv a b).
Proof.
  intros H. unfold pydiv. now rewrite (proj2 (flt_neq _ _ H)).
Qed.

Lemma pydiv_f100 (a : F) : pydiv a f100 = Ok (fdiv a f100).
Proof. unfold pydiv. now rewrite f100_nonzero. Qed.

Lemma pydiv_f12 (a : F) : pydiv a f12 = Ok (fdiv a f12).
Proof. unfold pydiv. now rewrite f12_nonzero. Qed.


(** A non-positive APR is clamped: the monthly rate is that of 0.0. *)
Lemma monthly_rate_of_nonpos (apr_pct : F) :
  (apr_pct <=? f0) = true ->
  monthly_rate_of apr_pct = fdiv (fdiv f0 f100) f12.
Proof.
  intros H. unfold monthly_rate_of, pymax.
  destruct (fle_cases _ _ H) as [Hlt | Heq].
  - now rewrite (to_float_neg _ Hlt), Hlt.
  - unfold to_float. rewrite Heq. now destruct (f0 <? f0).
Qed.

(** The function from its second test on, for a positive balance. *)
Lemma estimate_positive_balance (balance apr_pct payment : F) (max_months : Z) :
  (balance >? f0) = true ->
  _estimate_debt_payoff balance apr_pct payment max_months =
  let payment := to_float payment in
  let monthly_rate := monthly_rate_of apr_pct in
  let monthly_interest :=
    if monthly_rate >? f0 then balance * monthly_rate else f0 in
  if payment <=? f0 then
    Ok {| status := no_payment;
          months := None;
          total_interest := None;
          monthly_interest := monthly_interest;
          min_payment_to_amortize :=
            if monthly_rate >? f0 then monthly_interest + f1 else f0;
          reason := Some "No monthly payment entered."%string |}
  else if monthly_rate <=? f0 then
    (q <- pydiv balance payment ;;
     months <- fceil q ;;
     Ok {| status := paid_off;
           months := Some months;
           total_interest := Some f0;
           monthly_interest := f0;
           min_payment_to_amortize := f0;
           reason := None |})
  else if payment <=? monthly_interest then
    Ok {| status := non_amortizing;
          months := None;
          total_interest := None;
          monthly_interest := monthly_interest;
          min_payment_to_amortize := monthly_interest + f1;
          reason := Some "Payment is less than (or equal to) monthly interest, so the balance will grow."%string |}
  else
    match amortize monthly_rate payment (Z.to_nat max_months) balance f0 0%Z with
    | Returned e => Ok e
    | Finished b total_interest months =>
        if b >? f0 then
          Ok {| status := too_long;
                months := None;
                total_interest := Some total_interest;
                monthly_interest := monthly_interest;
                min_payment_to_amortize := monthly_interest + f1;
                reason := Some ("Not paid off within " ++ str_of_int max_months ++ " months.")%string |}
        else
          Ok {| status := paid_off;
                months := Some months;
                total_interest := Some total_interest;
                monthly_interest := monthly_interest;
                min_payment_to_amortize := monthly_interest + f1;
                reason := None |}
    end.
Proof.
  intros Hb. unfold _estimate_debt_payoff.
  rewrite (to_float_pos _ Hb), (flt_nle _ _ Hb).
  rewrite pydiv_f100. cbn [bind]. rewrite pydiv_f12. cbn [bind].
  reflexivity.
Qed.

(** *** The loop and the balances it sees *)

Lemma balances_hd (r p : F) n b ti m :
  exists l, balances r p n b ti m = b :: l.
Proof. destruct n; cbn; eauto. Qed.

Lemma strictly_decreasing_cons (x : F) (l : list F) :
  strictly_decreasing (x :: l) =
  match l with
  | y :: _ => (y <? x) && strictly_decreasing l
  | [] => true
  end.
Proof. destruct l; reflexivity. Qed.

Lemma last_nonempty_default {A : Type} (x y : A) (l : list A) (d d' : A) :
  last (x :: y :: l) d = last (y :: l) d'.
Proof.
  revert x y. induction l as [ | z l IH]; intros x y; [ reflexivity | ].
  change (last (x :: y :: z :: l) d) with (last (y :: z :: l) d).
  change (last (y :: z :: l) d') with (last (z :: l) d').
  apply IH.
Qed.

(** Where the loop finishes: at the last balance seen, after as many
    passes as balances but one, with the interest of each pass added. *)
Lemma amortize_finished (r p : F) :
  forall n b ti m b' ti' m',
    amortize r p n b ti m = Finished b' ti' m' ->
    let bs := balances r p n b ti m in
    last bs b = b'
    /\ m' = (m + Z.of_nat (List.length bs - 1))%Z
    /\ ti' = fold_left (fun acc x => acc + x * r) (removelast bs) ti
    /\ ((b' >? f0) = true -> List.length bs = S n).
Proof.
  induction n as [ | n IH]; intros b ti m b' ti' m' H; cbn [amortize] in H.
  - injection H as <- <- <-. cbn. repeat split; lia.
  - cbn [balances]. destruct (b >? f0) eqn:Hpos.
    + unfold loop_body in *.
      destruct (p - b * r <=? f0); [ discriminate | ].
      specialize (IH _ _ _ _ _ _ H). cbn zeta in IH.
      destruct (balances_hd r p n (b - (p - b * r)) (ti + b * r) (m + 1)%Z)
        as [l El].
      rewrite El in *. destruct IH as (H1 & H2 & H3 & H4).
      cbn zeta. split; [ | split; [ | split ] ].
      * rewrite <- H1. apply last_nonempty_default.
      * cbn [List.length] in *. lia.
      * exact H3.
      * intros Hb'. specialize (H4 Hb'). cbn [List.length] in *. lia.
    + injection H as <- <- <-. cbn. repeat split; try lia.
      intros Hb'. congruence.
Qed.





End Estimator.

Section EstimatorClaims.

Context {F : Type} {PF : PyFloat F} {PL : PyFloatLaws PF}.

(** A payment above a non-negative interest is positive. *)
Lemma payment_above_interest_pos (balance rate payment : F) :
  (balance >? f0) = true -> (rate >? f0) = true ->
  (payment >? balance * rate) = true -> (payment >? f0) = true.
Proof.
  intros Hb Hr Hp. exact (fpos_trans _ _ (fmul_pos _ _ Hb Hr) Hp).
Qed.


(** C3: for every balance > 0, payment > 0 and monthly rate > 0 with
    payment <= monthlyInterest, the interest of one month on the original
    balance, the function returns status non_amortizing with months = None,
    total_interest = None and min_payment_to_amortize = monthlyInterest + 1. *)
Theorem non_amortizing_payment_within_interest
  (balance apr_pct payment : F) (max_months : Z) :
  (balance >? f0) = true ->
  (payment >? f0) = true ->
  (monthly_rate_of apr_pct >? f0) = true ->
  (payment <=? balance * monthly_rate_of apr_pct) = true ->
  _estimate_debt_payoff balance apr_pct payment max_months =
  Ok {| status := non_amortizing;
        months := None;
        total_interest := None;
        monthly_interest := balance * monthly_rate_of apr_pct;
        min_payment_to_amortize := balance * monthly_rate_of apr_pct + f1;
        reason := Some "Payment is less than (or equal to) monthly interest, so the balance will grow."%string |}.
Proof.
  intros Hb Hp Hr Hle.
  rewrite (estimate_positive_balance _ _ _ _ Hb). cbn zeta.
  rewrite (to_float_pos _ Hp), (flt_nle _ _ Hp), (flt_nle _ _ Hr), Hr, Hle.
  reflexivity.
Qed.

(** The branch [if monthly_rate <= 0], lines 52-62: the function does what
    [math.ceil] does on the quotient, and [max_months] plays no part. *)
Lemma zero_rate_branch
  (balance apr_pct payment : F) (max_months : Z) :
  (balance >? f0) = true ->
  (payment >? f0) = true ->
  (monthly_rate_of apr_pct <=? f0) = true ->
  _estimate_debt_payoff balance apr_pct payment max_months =
  (n <- fceil (fdiv balance payment) ;;
   Ok {| status := paid_off;
         months := Some n;
         total_interest := Some f0;
         monthly_interest := f0;
         min_payment_to_amortize := f0;
         reason := None |}).
Proof.
  intros Hb Hp Hrate.
  rewrite (estimate_positive_balance _ _ _ _ Hb). cbn zeta.
  rewrite (to_float_pos _ Hp), (flt_nle _ _ Hp), Hrate.
  rewrite (pydiv_pos _ _ Hp). reflexivity.
Qed.

(** The statuses the function can return when the monthly rate is <= 0. *)
Lemma zero_rate_never_too_long
  (balance apr_pct payment : F) (max_months : Z) (e : PayoffEstimate) :
  (monthly_rate_of apr_pct <=? f0) = true ->
  _estimate_debt_payoff balance apr_pct payment max_months = Ok e ->
  status e <> too_long.
Proof.
  intros Hrate. unfold _estimate_debt_payoff.
  destruct (to_float balance <=? f0).
  - intros [= <-]. discriminate.
  - rewrite pydiv_f100. cbn [bind]. rewrite pydiv_f12. cbn [bind].
    fold (monthly_rate_of apr_pct). rewrite Hrate.
    destruct (to_float payment <=? f0).
    + intros [= <-]. discriminate.
    + destruct (pydiv _ _) as [q | x]; cbn [bind]; [ | discriminate ].
      destruct (fceil q) as [k | x]; cbn [bind]; [ | discriminate ].
      intros [= <-]. discriminate.
Qed.

(** C2, as the code has it: when the loop has used all max_months passes
    and the balance is still positive, the function returns too_long with
    months = None and, not None, total_interest = the interest added up
    over the passes; monthly_interest is that of the original balance. *)
Theorem too_long_reports_accumulated_interest
  (balance apr_pct payment : F) (max_months : Z) (b ti : F) (m : Z) :
  let monthly_rate := monthly_rate_of apr_pct in
  (balance >? f0) = true ->
  (monthly_rate >? f0) = true ->
  (payment >? balance * monthly_rate) = true ->
  amortize monthly_rate payment (Z.to_nat max_months) balance f0 0%Z
    = Finished b ti m ->
  (b >? f0) = true ->
  _estimate_debt_payoff balance apr_pct payment max_months =
  Ok {| status := too_long;
        months := None;
        total_interest := Some ti;
        monthly_interest := balance * monthly_rate;
        min_payment_to_amortize := balance * monthly_rate + f1;
        reason := Some ("Not paid off within " ++ str_of_int max_months ++ " months.")%string |}
  /\ m = Z.of_nat (Z.to_nat max_months)
  /\ ti = fold_left (fun acc x => acc + x * monthly_rate)
            (removelast (balances monthly_rate payment (Z.to_nat max_months)
                           balance f0 0%Z)) f0.
Proof.
  intros monthly_rate Hb Hr Hp Hloop Hpos.
  pose proof (payment_above_interest_pos _ _ _ Hb Hr Hp) as Hpay.
  destruct (amortize_finished _ _ _ _ _ _ _ _ _ Hloop) as (_ & Hm & Hti & Hn).
  split; [ | split ].
  - rewrite (estimate_positive_balance _ _ _ _ Hb). cbn zeta.
    fold monthly_rate.
    rewrite (to_float_pos _ Hpay), (flt_nle _ _ Hpay), (flt_nle _ _ Hr), Hr,
      (flt_nle _ _ Hp), Hloop, Hpos.
    reflexivity.
  - rewrite Hm, (Hn Hpos). cbn [Nat.sub]. lia.
  - exact Hti.
Qed.

End EstimatorClaims.

(** ** The zero-rate branch and [math.ceil] *)

(** [math.ceil] has a value exactly on the finite floats. *)
Lemma b64_ceil_defined (x : float) :
  (exists n, b64_ceil x = Ok n) <-> PrimFloat.is_finite x = true.
Proof.
  unfold PrimFloat.is_finite, PrimFloat.is_nan, PrimFloat.is_infinity,
    b64_ceil.
  rewrite !FloatAxioms.eqb_spec, FloatAxioms.abs_spec.
  change (Prim2SF infinity) with (S754_infinity false).
  destruct (Prim2SF x) as [[] | [] | | [] m e];
    cbn [SFabs SFeqb SFcompare negb orb];
    rewrite ?Z.compare_refl, ?Pos.compare_refl; cbn [CompOpp negb orb];
    (split;
     [ intros [n H]; first [ discriminate H | reflexivity ]
     | intros H; first [ discriminate H | destruct e; eauto | eauto ] ]).
Qed.

(** C6: for every balance > 0 and payment > 0 with monthly rate <= 0, which
    is the case of every APR <= 0 (a negative APR counts as 0), the function
    does what [math.ceil] does on the quotient balance / payment: where it
    has a value n, the result is paid_off with months = n and
    total_interest = 0.0, and where it raises, the function raises the
    same.  In binary64 it has a value exactly when the quotient is finite;
    in exact arithmetic it always has. *)
Theorem zero_rate_linear_payoff :
  (forall (F : Type) (PF : PyFloat F) (PL : PyFloatLaws PF)
          (balance apr_pct payment : F) (max_months : Z),
      (balance >? f0) = true ->
      (payment >? f0) = true ->
      (apr_pct <=? f0) = true \/ (monthly_rate_of apr_pct <=? f0) = true ->
      (forall n,
          fceil (fdiv balance payment) = Ok n ->
          _estimate_debt_payoff balance apr_pct payment max_months =
          Ok {| status := paid_off;
                months := Some n;
                total_interest := Some f0;
                monthly_interest := f0;
                min_payment_to_amortize := f0;
                reason := None |})
      /\ (forall x,
             fceil (fdiv balance payment) = Raise x ->
             _estimate_debt_payoff balance apr_pct payment max_months
             = Raise x))
  /\ (forall (balance apr_pct payment : float) (max_months : Z),
        (balance >? f0) = true ->
        (payment >? f0) = true ->
        (apr_pct <=? f0) = true \/ (monthly_rate_of apr_pct <=? f0) = true ->
        PrimFloat.is_finite (fdiv balance payment) = true ->
        exists n,
          b64_ceil (fdiv balance payment) = Ok n
          /\ _estimate_debt_payoff balance apr_pct payment max_months =
             Ok {| status := paid_off;
                   months := Some n;
                   total_interest := Some f0;
                   monthly_interest := f0;
                   min_payment_to_amortize := f0;
                   reason := None |})
  /\ (forall (balance apr_pct payment : Qc) (max_months : Z),
        (balance >? f0) = true ->
        (payment >? f0) = true ->
        (apr_pct <=? f0) = true \/ (monthly_rate_of apr_pct <=? f0) = true ->
        _estimate_debt_payoff balance apr_pct payment max_months =
        Ok {| status := paid_off;
              months := Some (Qc_ceil (fdiv balance payment));
              total_interest := Some f0;
              monthly_interest := f0;
              min_payment_to_amortize := f0;
              reason := None |}).
Proof.
  assert (Hrate : forall (F : Type) (PF : PyFloat F) (PL : PyFloatLaws PF)
                         (apr_pct : F),
             (apr_pct <=? f0) = true \/ (monthly_rate_of apr_pct <=? f0) = true ->
             (monthly_rate_of apr_pct <=? f0) = true).
  { intros F PF PL apr_pct [Ha | Hr]; [ | exact Hr ].
    rewrite (monthly_rate_of_nonpos _ Ha). apply zero_rate. }
  split; [ | split ].
  - intros F PF PL balance apr_pct payment max_months Hb Hp Ha.
    rewrite (zero_rate_branch _ _ _ max_months Hb Hp (Hrate _ _ _ _ Ha)).
    split; intros v Hv; now rewrite Hv.
  - intros balance apr_pct payment max_months Hb Hp Ha Hfin.
    apply b64_ceil_defined in Hfin. destruct Hfin as [n Hn].
    exists n. split; [ exact Hn | ].
    rewrite (zero_rate_branch _ _ _ max_months Hb Hp (Hrate _ _ _ _ Ha)).
    cbn [fceil binary64]. now rewrite Hn.
  - intros balance apr_pct payment max_months Hb Hp Ha.
    now rewrite (zero_rate_branch _ _ _ max_months Hb Hp (Hrate _ _ _ _ Ha)).
Qed.

(** ** An APR that is NaN, in binary64 *)

(** There is one NaN. *)
Lemma b64_nan_eq (x : float) : PrimFloat.is_nan x = true -> x = nan.
Proof.
  intros H. apply Prim2SF_inj. change (Prim2SF nan) with S754_nan.
  unfold PrimFloat.is_nan in H. rewrite FloatAxioms.eqb_spec in H.
  destruct (Prim2SF x) as [[] | [] | | [] m e]; try reflexivity;
    cbn [SFeqb SFcompare negb] in H;
    rewrite ?Z.compare_refl, ?Pos.compare_refl in H; discriminate H.
Qed.

Lemma b64_mul_nan (x : float) : PrimFloat.mul x nan = nan.
Proof.
  apply Prim2SF_inj. rewrite FloatAxioms.mul_spec.
  change (Prim2SF nan) with S754_nan. now destruct (Prim2SF x).
Qed.

Lemma b64_sub_nan (x : float) : PrimFloat.sub x nan = nan.
Proof.
  apply Prim2SF_inj. rewrite FloatAxioms.sub_spec.
  change (Prim2SF nan) with S754_nan. now destruct (Prim2SF x) as [ [] | [] | | ].
Qed.

(** With a rate that is NaN the first pass turns the balance into NaN,
    which is not > 0: the loop stops after one pass and the result is
    paid_off. *)
Lemma b64_nan_rate_loop (payment b ti : float) (m : Z) (n : nat) :
  exists ti',
    amortize (PF:=binary64) nan payment (S n) b ti m
    = Finished (if PrimFloat.ltb 0 b then nan else b) ti'
        (if PrimFloat.ltb 0 b then m + 1 else m)%Z.
Proof.
  cbn [amortize]. unfold loop_body.
  cbn [fltb fleb fmul fsub fadd f0 binary64].
  destruct (PrimFloat.ltb 0 b); [ | eauto ].
  rewrite b64_mul_nan, !b64_sub_nan.
  change (PrimFloat.leb nan 0) with false. cbn iota.
  destruct n; cbn [amortize]; cbn [fltb f0 binary64];
    change (PrimFloat.ltb 0 nan) with false; eauto.
Qed.

(** In binary64 an APR that is NaN gives too_long only under a cap
    <= 0. *)
Lemma b64_nan_apr_too_long (balance apr_pct payment : float)
  (max_months : Z) (e : PayoffEstimate) :
  PrimFloat.is_nan apr_pct = true ->
  _estimate_debt_payoff (PF:=binary64) balance apr_pct payment max_months
  = Ok e ->
  status e = too_long ->
  (max_months <= 0)%Z.
Proof.
  intros Hnan H Hs. apply b64_nan_eq in Hnan. subst apr_pct.
  destruct (Z.le_gt_cases max_months 0) as [ | Hpos]; [ assumption | ].
  exfalso. unfold _estimate_debt_payoff in H.
  destruct (to_float balance <=? f0); [ injection H as <-; discriminate | ].
  change (@to_float float binary64 nan) with nan in H.
  change (@pymax float binary64 nan f0) with nan in H.
  change (@pydiv float binary64 nan f100) with (@Ok float nan) in H.
  cbn [bind] in H.
  change (@pydiv float binary64 nan f12) with (@Ok float nan) in H.
  cbn [bind] in H.
  change (@fltb float binary64 f0 nan) with false in H.
  change (@fleb float binary64 nan f0) with false in H. cbn iota in H.
  destruct (to_float payment <=? f0); [ injection H as <-; discriminate | ].
  destruct (Z.to_nat max_months) as [ | n] eqn:En; [ lia | ].
  destruct (b64_nan_rate_loop (to_float payment) (to_float balance) f0 0 n)
    as [ti' Hloop].
  rewrite Hloop in H.
  destruct (PrimFloat.ltb 0 (to_float balance)) eqn:Hb.
  - change (@fltb float binary64 f0 nan) with false in H.
    injection H as <-. discriminate.
  - cbn [fltb f0 binary64] in H. rewrite Hb in H.
    injection H as <-. discriminate.
Qed.

(** C10: for every balance > 0 and payment > 0 with APR <= 0 the result
    does not depend on max_months: where [math.ceil] has a value on the
    quotient, the function returns paid_off with that many months under
    every cap, so also when they exceed it.  No input with APR <= 0 gives
    too_long: when too_long is returned, APR <= 0 is false, which is
    APR > 0 or an APR that is NaN.  In binary64 an APR that is NaN gives
    too_long only under a cap <= 0; in exact arithmetic too_long is
    returned only when APR > 0. *)
Theorem cap_applies_to_interest_bearing_loop_only :
  (forall (F : Type) (PF : PyFloat F) (PL : PyFloatLaws PF)
          (balance apr_pct payment : F) (n : Z),
      (balance >? f0) = true ->
      (payment >? f0) = true ->
      (apr_pct <=? f0) = true ->
      fceil (fdiv balance payment) = Ok n ->
      forall max_months,
        _estimate_debt_payoff balance apr_pct payment max_months =
        Ok {| status := paid_off;
              months := Some n;
              total_interest := Some f0;
              monthly_interest := f0;
              min_payment_to_amortize := f0;
              reason := None |})
  /\ (forall (F : Type) (PF : PyFloat F) (PL : PyFloatLaws PF)
             (balance apr_pct payment : F) (max_months : Z)
             (e : PayoffEstimate),
        _estimate_debt_payoff balance apr_pct payment max_months = Ok e ->
        status e = too_long ->
        (apr_pct <=? f0) = false
        /\ ((apr_pct >? f0) = true \/ fisnan apr_pct = true))
  /\ (forall (balance apr_pct payment : float) (max_months : Z)
             (e : PayoffEstimate),
        _estimate_debt_payoff balance apr_pct payment max_months = Ok e ->
        status e = too_long ->
        (apr_pct >? f0) = true
        \/ (PrimFloat.is_nan apr_pct = true /\ (max_months <= 0)%Z))
  /\ (forall (balance apr_pct payment : Qc) (max_months : Z)
             (e : PayoffEstimate),
        _estimate_debt_payoff balance apr_pct payment max_months = Ok e ->
        status e = too_long ->
        (apr_pct >? f0) = true).
Proof.
  assert (Hloop : forall (F : Type) (PF : PyFloat F) (PL : PyFloatLaws PF)
                         (balance apr_pct payment : F) (max_months : Z)
                         (e : PayoffEstimate),
             _estimate_debt_payoff balance apr_pct payment max_months = Ok e ->
             status e = too_long ->
             (apr_pct <=? f0) = false
             /\ ((apr_pct >? f0) = true \/ fisnan apr_pct = true)).
  { intros F PF PL balance apr_pct payment max_months e He Hs.
    assert (Ha : (apr_pct <=? f0) = false).
    { destruct (apr_pct <=? f0) eqn:Ha; [ exfalso | reflexivity ].
      assert (Hrate : (monthly_rate_of apr_pct <=? f0) = true)
        by (rewrite (monthly_rate_of_nonpos _ Ha); apply zero_rate).
      exact (zero_rate_never_too_long _ _ _ _ _ Hrate He Hs). }
    split; [ exact Ha | ].
    destruct (fle_total _ _ Ha) as [H | [H | H]]; auto.
    rewrite f0_not_nan in H. discriminate. }
  split; [ | split; [ | split ] ].
  - intros F PF PL balance apr_pct payment n Hb Hp Ha Hn max_months.
    assert (Hrate : (monthly_rate_of apr_pct <=? f0) = true)
      by (rewrite (monthly_rate_of_nonpos _ Ha); apply zero_rate).
    rewrite (zero_rate_branch _ _ _ max_months Hb Hp Hrate).
    now rewrite Hn.
  - exact Hloop.
  - intros balance apr_pct payment max_months e He Hs.
    destruct (Hloop _ _ _ _ _ _ _ _ He Hs) as [_ [H | H]];
      [ now left | right ].
    split; [ exact H | ].
    exact (b64_nan_apr_too_long _ _ _ _ _ H He Hs).
  - intros balance apr_pct payment max_months e He Hs.
    destruct (Hloop _ _ _ _ _ _ _ _ He Hs) as [_ [H | H]];
      [ exact H | discriminate H ].
Qed.

(** ** The amortization invariant *)

(** Division by a literal, for [lra]. *)
Ltac q_consts :=
  unfold Qdiv in *;
  repeat match goal with
  | |- context [Qinv (?n # ?d)] =>
      let v := eval compute in (Qinv (n # d)) in
      change (Qinv (n # d)) with v
  | H : context [Qinv (?n # ?d)] |- _ =>
      let v := eval compute in (Qinv (n # d)) in
      change (Qinv (n # d)) with v in H
  end.


Lemma exact_loop_body (r p b ti : Qc) (m : Z) :
  (b * r <? p) = true ->
  loop_body r p b ti m = inr (b - (p - b * r), ti + b * r, (m + 1)%Z).
Proof.
  intros H. unfold loop_body.
  assert (E : (p - b * r <=? f0) = false) by (qc_arith; lra).
  now rewrite E.
Qed.

(** While the balance stays at or below the original one, a pass subtracts
    a positive principal, and the loop never takes its early return. *)
Lemma exact_amortize_progress (r p b0 : Qc) :
  (f0 <? r) = true -> (b0 * r <? p) = true ->
  forall (n : nat) (b ti : Qc) (m : Z),
    (b <=? b0) = true ->
    strictly_decreasing (balances r p n b ti m) = true
    /\ exists b' ti' m', amortize r p n b ti m = Finished b' ti' m'.
Proof.
  intros Hr Hp. induction n as [ | n IH]; intros b ti m Hb.
  - cbn. eauto.
  - cbn [balances amortize]. destruct (b >? f0) eqn:Hpos.
    + assert (Hbp : (b * r <? p) = true) by (qc_arith; nra).
      rewrite (exact_loop_body _ _ _ ti m Hbp).
      assert (Hlt : (b - (p - b * r) <? b) = true) by (qc_arith; lra).
      assert (Hle : (b - (p - b * r) <=? b0) = true) by (qc_arith; lra).
      destruct (IH (b - (p - b * r)) (ti + b * r) (m + 1)%Z Hle) as [Hd Hex].
      split; [ | exact Hex ].
      rewrite strictly_decreasing_cons.
      destruct (balances_hd r p n (b - (p - b * r)) (ti + b * r) (m + 1)%Z)
        as [l El].
      rewrite El in Hd |- *. now rewrite Hlt, Hd.
    + cbn. eauto.
Qed.

(** In exact arithmetic a positive APR is a positive monthly rate. *)
Lemma exact_monthly_rate_pos (apr_pct : Qc) :
  (apr_pct >? f0) = true <-> (monthly_rate_of apr_pct >? f0) = true.
Proof.
  unfold monthly_rate_of, pymax, to_float. split.
  - intros H. rewrite (proj2 (flt_neq _ _ H)).
    assert (E : (apr_pct <? f0) = false) by (qc_arith; lra).
    rewrite E. qc_arith. q_consts. lra.
  - destruct (apr_pct =? f0) eqn:E.
    + destruct (f0 <? f0); intros H; qc_arith; q_consts; lra.
    + destruct (apr_pct <? f0) eqn:E'; intros H; qc_arith; q_consts; lra.
Qed.

(** [math.ceil] on a rational: the least integer not below it. *)
Lemma Qc_ceil_spec (x : Qc) :
  (inject_Z (Qc_ceil x) - 1 < x /\ x <= inject_Z (Qc_ceil x))%Q.
Proof.
  unfold Qc_ceil, Zceil_div. destruct x as [[n d] Hc]. cbn [this Qnum Qden].
  pose proof (Z.div_mod (- n) (Z.pos d) ltac:(lia)) as Hdm.
  pose proof (Z.mod_pos_bound (- n) (Z.pos d) ltac:(lia)) as Hmod.
  set (q := (- n / Z.pos d)%Z) in *.
  unfold Qlt, Qle, Qminus, Qplus, Qopp, inject_Z. cbn [Qnum Qden].
  split; nia.
Qed.






(** ** compute_metrics *)

(** Reads a [bind] chain that returned: each step returned too. *)
Ltac bind_inv H :=
  repeat match type of H with
  | bind ?m _ = Ok _ =>
      let x := fresh "x" in
      let E := fresh "E" in
      destruct m as [x | ?] eqn:E; cbn [bind] in H; [ | discriminate H ]
  | (let '(_, _) := ?p in _) = Ok _ => destruct p
  end.

Section Metrics.

Context {F : Type} {PF : PyFloat F} {PL : PyFloatLaws PF}.

Variable payoff_date_after : Z -> res string.

Lemma pct_of_total (x y : F) :
  pct_of x y = Ok (if y >? f0 then Some (fdiv x y * f100) else None).
Proof.
  unfold pct_of. destruct (y >? f0) eqn:E; [ | reflexivity ].
  now rewrite (pydiv_pos _ _ E).
Qed.

Lemma debt_burden_total (net_income total_monthly_debt_payments : F) :
  debt_burden net_income total_monthly_debt_payments =
  Ok (if (net_income >? f0) && (total_monthly_debt_payments >? f0)
      then Some (fdiv total_monthly_debt_payments net_income * f100)
      else None).
Proof.
  unfold debt_burden. destruct (net_income >? f0) eqn:E; [ | reflexivity ].
  cbn [andb]. destruct (total_monthly_debt_payments >? f0); [ | reflexivity ].
  now rewrite (pydiv_pos _ _ E).
Qed.

Lemma needs_wants_save_split_total (net needs wants save : F) :
  needs_wants_save_split net needs wants save =
  Ok (if net >? f0 then
        let n := fdiv needs net * f100 in
        let w := fdiv wants net * f100 in
        let s := fdiv save net * f100 in
        (Some n, Some w, Some s, Some (pymax f0 (f100 - ((n + w) + s))))
      else (None, None, None, None)).
Proof.
  unfold needs_wants_save_split. destruct (net >? f0) eqn:E; [ | reflexivity ].
  now rewrite !(pydiv_pos _ _ E).
Qed.

Lemma weighted_apr_of_total (rows : list DebtRow) (total : F) :
  weighted_apr_of rows total =
  Ok (if total >? f0 then
        Some (fdiv (fold_left
                      (fun num row =>
                         num + to_float (Balance row) * to_float (APR row))
                      rows f0) total)
      else None).
Proof.
  unfold weighted_apr_of. destruct (total >? f0) eqn:E; [ | reflexivity ].
  now rewrite (pydiv_pos _ _ E).
Qed.

(** C9: the debt burden is total_monthly_debt_payments / net_income * 100
    exactly when net_income > 0 and the payments are > 0, and None in every
    other case; the division is never by zero, so it never raises. *)
Theorem debt_burden_defined_iff_income_and_payments :
  (forall net pay : F,
      debt_burden net pay =
      Ok (if (net >? f0) && (pay >? f0) then Some (fdiv pay net * f100)
          else None))
  /\ (forall (st : SessionState) (m : Metrics),
        compute_metrics payoff_date_after st = Ok m ->
        debt_burden_pct m =
        if (net_income m >? f0) && (total_monthly_debt_payments m >? f0)
        then Some (fdiv (total_monthly_debt_payments m) (net_income m) * f100)
        else None).
Proof.
  split; [ exact debt_burden_total | ].
  intros st m H. unfold compute_metrics in H. bind_inv H.
  injection H as <-. cbn.
  match goal with
  | E : debt_burden _ _ = Ok _ |- _ => rewrite debt_burden_total in E;
      now injection E as <-
  end.
Qed.

(** C8: net income is gross income minus manual_deductions_total when the
    paycheck-breakdown flag is set and gross income otherwise, with
    manual_deductions_total = taxes + retirement + benefits + other/SSI;
    the company match is reported and never subtracted: net income is the
    same for every value of it. *)
Theorem net_income_respects_breakdown_flag
  (st : SessionState) (m : Metrics) :
  compute_metrics payoff_date_after st = Ok m ->
  manual_deductions_total m =
    ((to_float_opt (pf_manual_taxes st)
      + to_float_opt (pf_manual_retirement st))
     + to_float_opt (pf_manual_benefits st))
    + to_float_opt (pf_manual_other_ssi st)
  /\ total_income m = sum_df (pf_income_df st) Amount
  /\ net_income m =
       (match pf_use_paycheck_breakdown st with
        | Some true => total_income m - manual_deductions_total m
        | _ => total_income m
        end)
  /\ company_match m = to_float_opt (pf_manual_match st)
  /\ forall v, exists m',
       compute_metrics payoff_date_after (set_manual_match st v) = Ok m'
       /\ net_income m' = net_income m
       /\ manual_deductions_total m' = manual_deductions_total m.
Proof.
  intros H. unfold compute_metrics in H.
  rewrite !pct_of_total in H. cbn [bind] in H. bind_inv H.
  injection H as <-. cbn.
  repeat split.
  - now destruct (pf_use_paycheck_breakdown st) as [[ | ] | ].
  - intros v. unfold compute_metrics.
    rewrite !pct_of_total. cbn [bind].
    cbn [set_manual_match pf_income_df pf_fixed_df pf_essential_df
         pf_nonessential_df pf_saving_df pf_investing_df pf_debt_df
         pf_assets_df pf_liabilities_df pf_manual_taxes pf_manual_retirement
         pf_manual_benefits pf_manual_other_ssi pf_manual_match
         pf_use_paycheck_breakdown].
    repeat match goal with
    | E : ?t = Ok _ |- context [bind ?t _] => rewrite E; cbn [bind]
    end.
    eexists. split; [ reflexivity | ]. cbn. split; reflexivity.
Qed.

(** The loop over the debt rows appends the rows it keeps and raises the
    flag exactly when one of them cannot be paid off. *)
Lemma payoff_loop_flag (rows : list DebtRow) :
  forall acc has acc' has',
    payoff_loop payoff_date_after rows acc has = Ok (acc', has') ->
    exists new,
      acc' = acc ++ new
      /\ has' =
         has || existsb (fun r => status_in_unpayable (row_status r)) new.
Proof.
  induction rows as [ | row rows IH]; intros acc has acc' has' H.
  - cbn in H. injection H as <- <-. exists []. split.
    + now rewrite app_nil_r.
    + now rewrite orb_false_r.
  - cbn [payoff_loop] in H.
    destruct (payoff_row_step payoff_date_after row acc has)
      as [[acc1 has1] | ?] eqn:Hstep; cbn [bind fst snd] in H;
      [ | discriminate ].
    destruct (IH _ _ _ _ H) as (new & -> & ->).
    unfold payoff_row_step in Hstep.
    destruct (_estimate_debt_payoff _ _ _ _) as [est | ?];
      cbn [bind] in Hstep; [ | discriminate ].
    destruct (to_float (Balance row) <=? f0).
    + injection Hstep as <- <-. now exists new.
    + bind_inv Hstep. injection Hstep as <- <-.
      eexists (_ :: new). split.
      * now rewrite <- app_assoc.
      * cbn [existsb row_status].
        destruct (status_in_unpayable (status est)), has; reflexivity.
Qed.

(** The rows the loop adds are the debts it keeps, each with its
    estimate. *)
Lemma payoff_loop_rows (rows : list DebtRow) :
  forall acc has acc' has',
    payoff_loop payoff_date_after rows acc has = Ok (acc', has') ->
    exists new,
      acc' = acc ++ new
      /\ Forall2 payoff_row_of (filter kept_debt rows) new.
Proof.
  induction rows as [ | row rows IH]; intros acc has acc' has' H.
  - cbn in H. injection H as <- <-. exists []. split.
    + now rewrite app_nil_r.
    + constructor.
  - cbn [payoff_loop] in H.
    destruct (payoff_row_step payoff_date_after row acc has)
      as [[acc1 has1] | ?] eqn:Hstep; cbn [bind fst snd] in H;
      [ | discriminate ].
    destruct (IH _ _ _ _ H) as (new & -> & Hnew).
    unfold payoff_row_step in Hstep.
    destruct (_estimate_debt_payoff _ _ _ _) as [est | ?] eqn:Hest;
      cbn [bind] in Hstep; [ | discriminate ].
    cbn [filter]. unfold kept_debt at 1.
    destruct (to_float (Balance row) <=? f0); cbn [negb].
    + injection Hstep as <- <-. now exists new.
    + bind_inv Hstep. injection Hstep as <- <-.
      eexists (_ :: new). split.
      * now rewrite <- app_assoc.
      * constructor; [ | exact Hnew ].
        exists est. cbn. repeat split. exact Hest.
Qed.

(** When no listed row is unpayable, every debt that is listed has an
    estimate with status paid_off. *)
Lemma listed_debts_paid_off (rows : list DebtRow) (listed : list PayoffRow) :
  Forall2 payoff_row_of rows listed ->
  existsb (fun r => status_in_unpayable (row_status r)) listed = false ->
  Forall (fun row =>
            exists est,
              _estimate_debt_payoff (to_float (Balance row))
                (to_float (APR row)) (to_float (MonthlyPayment row)) 600
              = Ok est
              /\ status est = paid_off) rows.
Proof.
  induction 1 as [ | row r rows listed Hrow _ IH]; intros Hex;
    [ constructor | ].
  cbn [existsb] in Hex. apply orb_false_iff in Hex as [Hr Hrest].
  constructor; [ | exact (IH Hrest) ].
  destruct Hrow as (est & Hest & _ & _ & _ & Hst & _).
  exists est. split; [ exact Hest | ].
  rewrite Hst in Hr. destruct (status est); (reflexivity || discriminate).
Qed.

(** C5: the listed payoff rows are the debts of the table with a balance,
    each with its own estimate, and the flag tells whether one of them is
    non_amortizing, no_payment or too_long.  An overall months / interest /
    payoff date is reported only when every debt of the table with a
    balance has an estimate of status paid_off, the total balance and the
    total payment of the table are > 0, the weighted APR is defined and the
    estimator run on (total balance, weighted APR, total payment) returns
    paid_off; when it returns another status the three are None. *)
Theorem overall_estimate_only_when_all_payable
  (st : SessionState) (m : Metrics) :
  compute_metrics payoff_date_after st = Ok m ->
  Forall2 payoff_row_of (filter kept_debt (pf_debt_df st))
    (debt_payoff_rows m)
  /\ total_debt_balance m = sum_df (pf_debt_df st) Balance
  /\ total_monthly_debt_payments m = sum_df (pf_debt_df st) MonthlyPayment
  /\ debt_has_non_amortizing m =
       existsb (fun r => status_in_unpayable (row_status r))
         (debt_payoff_rows m)
  /\ (debt_overall_months m <> None \/ debt_overall_interest m <> None
      \/ debt_overall_payoff_date m <> None ->
      Forall (fun row =>
                exists est,
                  _estimate_debt_payoff (to_float (Balance row))
                    (to_float (APR row)) (to_float (MonthlyPayment row)) 600
                  = Ok est
                  /\ status est = paid_off)
        (filter kept_debt (pf_debt_df st))
      /\ debt_has_non_amortizing m = false
      /\ (total_debt_balance m >? f0) = true
      /\ (total_monthly_debt_payments m >? f0) = true
      /\ exists w e,
           debt_weighted_apr m = Some w
           /\ _estimate_debt_payoff (total_debt_balance m) w
                (total_monthly_debt_payments m) 600 = Ok e
           /\ status e = paid_off
           /\ debt_overall_months m = months e
           /\ debt_overall_interest m = total_interest e)
  /\ (forall w e,
        debt_weighted_apr m = Some w ->
        _estimate_debt_payoff (total_debt_balance m) w
          (total_monthly_debt_payments m) 600 = Ok e ->
        status e <> paid_off ->
        debt_overall_months m = None /\ debt_overall_interest m = None
        /\ debt_overall_payoff_date m = None).
Proof.
  intros H. unfold compute_metrics in H. bind_inv H.
  injection H as <-.
  cbn [debt_payoff_rows total_debt_balance total_monthly_debt_payments
       debt_has_non_amortizing debt_overall_months debt_overall_interest
       debt_overall_payoff_date debt_weighted_apr].
  match goal with
  | E : payoff_loop _ _ _ _ = Ok _ |- _ =>
      destruct (payoff_loop_flag _ _ _ _ _ E) as (new & -> & ->);
      destruct (payoff_loop_rows _ _ _ _ _ E) as (new' & Hnew' & Hrows)
  end.
  cbn [app orb] in Hnew' |- *. subst new'.
  match goal with
  | E : overall_estimate _ _ _ _ _ = Ok _ |- _ =>
      unfold overall_estimate in E; rename E into Hov
  end.
  split; [ exact Hrows | ]. split; [ reflexivity | ].
  split; [ reflexivity | ]. split; [ reflexivity | ].
  match type of Hov with
  | match ?t with _ => _ end = _ => destruct t as [w | ] eqn:Hw
  end.
  2:{ injection Hov as <- <- <-.
      split; [ intros [C | [C | C]]; now elim C | discriminate ]. }
  match type of Hov with
  | (if ?c then _ else _) = _ => destruct c eqn:Hguard
  end.
  2:{ injection Hov as <- <- <-.
      split; [ intros [C | [C | C]]; now elim C | ].
      intros; repeat split; reflexivity. }
  apply andb_true_iff in Hguard as [Hguard Hpay].
  apply andb_true_iff in Hguard as [Hnon Hbal].
  apply negb_true_iff in Hnon.
  destruct (_estimate_debt_payoff _ _ _ _) as [est | ?] eqn:Hest;
    cbn [bind] in Hov; [ | discriminate ].
  destruct (Status_eqb (status est) paid_off) eqn:Hst.
  - assert (Hpaid : status est = paid_off)
      by (destruct (status est); (reflexivity || discriminate)).
    split.
    + intros _. split; [ exact (listed_debts_paid_off _ _ Hrows Hnon) | ].
      repeat split; try assumption.
      exists w, est. repeat split; try assumption.
      * destruct (months est); bind_inv Hov; now injection Hov as <- <- <-.
      * destruct (months est); bind_inv Hov; now injection Hov as <- <- <-.
    + intros w' e' [= <-] He' C. rewrite Hest in He'.
      injection He' as <-. now elim C.
  - injection Hov as <- <- <-.
    split; [ intros [C | [C | C]]; now elim C | ].
    intros; repeat split; reflexivity.
Qed.

End Metrics.

(** ** The split and the weighted APR *)

Lemma fold_left_map_sum {F : Type} {PF : PyFloat F} {R : Type}
  (f : R -> F) (rows : list R) :
  forall acc, fold_left (fun a r => a + f r) rows acc
              = fold_left fadd (map f rows) acc.
Proof.
  induction rows as [ | r rows IH]; intros acc; [ reflexivity | apply IH ].
Qed.

Lemma exact_to_float (x : Qc) : to_float x = x.
Proof.
  unfold to_float. destruct (x =? f0) eqn:E; [ | reflexivity ].
  symmetry. now apply exact_eqb_iff.
Qed.

Lemma exact_fold_left_sum (l : list Qc) :
  forall acc : Qc, fold_left fadd l acc = (acc + Qc_sum l)%Qc.
Proof.
  induction l as [ | x l IH]; intros acc; cbn [fold_left Qc_sum fold_right].
  - change (Qc_of_Z 0) with 0%Qc. ring.
  - rewrite IH. cbn [fadd exact]. unfold Qc_sum. ring.
Qed.

Lemma exact_fsum (l : list Qc) : fsum l = Qc_sum l.
Proof.
  unfold fsum. rewrite exact_fold_left_sum.
  change (@f0 Qc exact) with 0%Qc. ring.
Qed.

(** Rows with a zero balance add nothing to either sum. *)
Lemma Qc_sum_positive_balances (g : DebtRow (F:=Qc) -> Qc)
  (rows : list (DebtRow (F:=Qc))) :
  Forall (fun r => (f0 <=? Balance r) = true) rows ->
  (forall r, Balance r = 0%Qc -> g r = 0%Qc) ->
  Qc_sum (map g (filter (fun r => Balance r >? f0) rows)) = Qc_sum (map g rows).
Proof.
  intros Hnn Hg. induction Hnn as [ | r rows Hr _ IH]; [ reflexivity | ].
  cbn [filter]. destruct (Balance r >? f0) eqn:E; cbn [map Qc_sum fold_right].
  - fold (Qc_sum (map g (filter (fun r => Balance r >? f0) rows))).
    fold (Qc_sum (map g rows)). now rewrite IH.
  - fold (Qc_sum (map g rows)). rewrite IH.
    assert (H0 : Balance r = 0%Qc).
    { apply Qcle_antisym.
      - now apply exact_ltb_false.
      - now apply exact_leb_iff. }
    rewrite (Hg r H0). ring.
Qed.


Section Split.

Variable payoff_date_after : Z -> res string.


(** The weighted APR of the result, as sums over the debt rows. *)
Lemma weighted_apr_as_sums {F : Type} {PF : PyFloat F} {PL : PyFloatLaws PF}
  (st : SessionState) (m : Metrics) :
  compute_metrics payoff_date_after st = Ok m ->
  total_debt_balance m
    = fsum (map (fun r => fillna (Balance r)) (pf_debt_df st))
  /\ ((total_debt_balance m >? f0) = true ->
      debt_weighted_apr m =
      Some (fdiv
              (fsum (map (fun r => to_float (Balance r) * to_float (APR r))
                       (pf_debt_df st)))
              (total_debt_balance m))).
Proof.
  intros H. unfold compute_metrics in H. bind_inv H.
  injection H as <-. cbn [total_debt_balance debt_weighted_apr]. split.
  - unfold sum_df, fsum. apply fold_left_map_sum.
  - intros Hpos.
    match goal with
    | E : weighted_apr_of _ _ = Ok _ |- _ =>
        rewrite weighted_apr_of_total, Hpos in E; injection E as <-
    end.
    unfold fsum. now rewrite fold_left_map_sum.
Qed.

(** C7: when the total debt balance is positive, the weighted APR is the
    sum of balance_i * apr_i over the sum of balance_i, both sums running
    over the debt rows alone; in exact arithmetic this is the
    balance-weighted mean of the APRs, and, every balance being >= 0, the
    mean over the debts with balance > 0. *)
Theorem weighted_apr_is_balance_weighted_mean :
  (forall (F : Type) (PF : PyFloat F) (PL : PyFloatLaws PF)
          (st : SessionState) (m : Metrics),
      compute_metrics payoff_date_after st = Ok m ->
      total_debt_balance m
        = fsum (map (fun r => fillna (Balance r)) (pf_debt_df st))
      /\ ((total_debt_balance m >? f0) = true ->
          debt_weighted_apr m =
          Some (fdiv
                  (fsum (map (fun r => to_float (Balance r) * to_float (APR r))
                           (pf_debt_df st)))
                  (total_debt_balance m))))
  /\ (forall (st : SessionState (F:=Qc)) (m : Metrics),
        compute_metrics payoff_date_after st = Ok m ->
        (total_debt_balance m >? f0) = true ->
        debt_weighted_apr m = Some (weighted_mean_apr (pf_debt_df st))
        /\ (Forall (fun r => (f0 <=? Balance r) = true) (pf_debt_df st) ->
            weighted_mean_apr (pf_debt_df st)
            = weighted_mean_apr
                (filter (fun r => Balance r >? f0) (pf_debt_df st)))).
Proof.
  split.
  - intros F PF PL st m. apply weighted_apr_as_sums.
  - intros st m H Hpos.
    destruct (weighted_apr_as_sums st m H) as [Htot Hw]. split.
    + rewrite (Hw Hpos), Htot, !exact_fsum. unfold weighted_mean_apr.
      f_equal. change (@fdiv Qc exact) with Qcdiv.
      f_equal; f_equal. apply map_ext. intros r.
      now rewrite !exact_to_float.
    + intros Hnn. unfold weighted_mean_apr.
      rewrite (Qc_sum_positive_balances (fun r => (Balance r * APR r)%Qc) _ Hnn),
        (Qc_sum_positive_balances Balance _ Hnn); [ reflexivity | | ].
      * now intros r.
      * intros r ->. ring.
Qed.

End Split.

(** ** In exact arithmetic nothing raises *)

Lemma exact_estimate_returns (balance apr_pct payment : Qc) (max_months : Z) :
  exists e, _estimate_debt_payoff balance apr_pct payment max_months = Ok e.
Proof.
  unfold _estimate_debt_payoff.
  destruct (to_float balance <=? f0); [ now eexists | ].
  rewrite pydiv_f100. cbn [bind]. rewrite pydiv_f12. cbn [bind].
  fold (monthly_rate_of apr_pct).
  destruct (to_float payment <=? f0) eqn:Hp; [ now eexists | ].
  assert (Hpos : (to_float payment >? f0) = true)
    by (apply exact_ltb_iff; now apply exact_leb_false).
  destruct (monthly_rate_of apr_pct <=? f0).
  - rewrite (pydiv_pos _ _ Hpos). cbn [bind fceil exact]. now eexists.
  - match goal with
    | |- context [if ?c then Ok _ else match amortize _ _ _ _ _ _ with _ => _ end] =>
        destruct c; [ now eexists | ]
    end.
    destruct (amortize _ _ _ _ _ _) as [e | b' ti' m'].
    + now eexists.
    + destruct (b' >? f0); now eexists.
Qed.

Section ExactReturns.

(** The date of every month offset can be formatted. *)
Variable payoff_date_after : Z -> res string.
Hypothesis payoff_date_returns : forall n, exists d, payoff_date_after n = Ok d.

Lemma exact_payoff_row_step_returns (row : DebtRow (F:=Qc)) acc has :
  exists r, payoff_row_step payoff_date_after row acc has = Ok r.
Proof.
  unfold payoff_row_step.
  destruct (exact_estimate_returns (to_float (Balance row))
              (to_float (APR row)) (to_float (MonthlyPayment row)) 600)
    as [est ->].
  cbn [bind]. destruct (_ <=? f0); [ now eexists | ].
  destruct (months est) as [n | ]; cbn [bind].
  - destruct (0 <? n)%Z;
      [ destruct (payoff_date_returns n) as [d ->] | destruct (n =? 0)%Z ];
      cbn [bind fof_int exact]; rewrite pydiv_f12; cbn [bind]; now eexists.
  - now eexists.
Qed.

Lemma exact_payoff_loop_returns (rows : list (DebtRow (F:=Qc))) :
  forall acc has, exists r, payoff_loop payoff_date_after rows acc has = Ok r.
Proof.
  induction rows as [ | row rows IH]; intros acc has; cbn [payoff_loop].
  - now eexists.
  - destruct (exact_payoff_row_step_returns row acc has) as [[acc1 has1] ->].
    cbn [bind fst snd]. apply IH.
Qed.

Lemma exact_overall_estimate_returns has (total pay : Qc) w :
  exists r, overall_estimate payoff_date_after has total pay w = Ok r.
Proof.
  unfold overall_estimate. destruct w as [w | ]; [ | now eexists ].
  destruct (negb has && _ && _); [ | now eexists ].
  destruct (exact_estimate_returns total w pay 600) as [est ->]. cbn [bind].
  destruct (Status_eqb _ _); [ | now eexists ].
  destruct (months est) as [n | ]; [ | now eexists ].
  destruct (payoff_date_returns n) as [d ->]. cbn. now eexists.
Qed.

(** [compute_metrics] returns a result for every session. *)
Lemma exact_compute_metrics_returns (st : SessionState (F:=Qc)) :
  exists m, compute_metrics payoff_date_after st = Ok m.
Proof.
  unfold compute_metrics.
  rewrite !pct_of_total, needs_wants_save_split_total, weighted_apr_of_total,
    debt_burden_total.
  cbn [bind].
  destruct (_ >? f0) at 1;
    (cbn zeta;
     destruct (exact_payoff_loop_returns (pf_debt_df st) [] false)
       as [[rows has] ->]; cbn [bind];
     match goal with
     | |- context [overall_estimate ?d ?h ?t ?p ?w] =>
         destruct (exact_overall_estimate_returns h t p w) as [[[om oi] od] ->]
     end; cbn [bind]; now eexists).
Qed.

End ExactReturns.

(** ** The claims at concrete inputs *)

Local Open Scope float_scope.

(** C3 at balance = 5000, apr = 24, payment = 90: monthly interest 100.0,
    non_amortizing, minimum payment 101.0. *)
Lemma non_amortizing_5000_24_90 :
  _estimate_debt_payoff (PF:=binary64) 5000 24 90 600 =
  Ok {| status := non_amortizing;
        months := None;
        total_interest := None;
        monthly_interest := 100;
        min_payment_to_amortize := 101;
        reason := Some "Payment is less than (or equal to) monthly interest, so the balance will grow."%string |}.
Proof.
  exact (non_amortizing_payment_within_interest (PF:=binary64)
           5000 24 90 600 eq_refl eq_refl eq_refl eq_refl).
Defined.

(** C6 at balance = 1200, payment = 100, with apr = 0 and apr = -5:
    12 months, no interest. *)
Lemma zero_rate_1200_over_100 :
  _estimate_debt_payoff (PF:=binary64) 1200 0 100 600 =
  Ok {| status := paid_off; months := Some 12%Z; total_interest := Some 0;
        monthly_interest := 0; min_payment_to_amortize := 0;
        reason := None |}
  /\ _estimate_debt_payoff (PF:=binary64) 1200 (-5) 100 600 =
     Ok {| status := paid_off; months := Some 12%Z; total_interest := Some 0;
           monthly_interest := 0; min_payment_to_amortize := 0;
           reason := None |}.
Proof.
  split.
  - exact (proj1 (proj1 zero_rate_linear_payoff float binary64 binary64_laws
                    1200 0 100 600%Z eq_refl eq_refl (or_introl eq_refl))
             12%Z eq_refl).
  - exact (proj1 (proj1 zero_rate_linear_payoff float binary64 binary64_laws
                    1200 (-5) 100 600%Z eq_refl eq_refl (or_introl eq_refl))
             12%Z eq_refl).
Defined.

(** C6 as stated fails in binary64 at balance = 1e308
    (0x1.1ccf385ebc8ap+1023), apr = 0 and payment = 0.5: the quotient
    overflows to infinity, on which [math.ceil] raises OverflowError. *)
Lemma zero_rate_quotient_overflows :
  (0x1.1ccf385ebc8ap+1023 >? 0)%py = true /\ (0.5 >? 0)%py = true /\ (0 <=? 0)%py = true
  /\ _estimate_debt_payoff (PF:=binary64) 0x1.1ccf385ebc8ap+1023 0 0.5 600
     = Raise OverflowError.
Proof. repeat split. Qed.

(** C10 at balance = 100000, apr = 0, payment = 100: 1000 months, beyond
    the cap of 600, and paid_off. *)
Lemma zero_rate_beyond_cap :
  _estimate_debt_payoff (PF:=binary64) 100000 0 100 600 =
  Ok {| status := paid_off; months := Some 1000%Z; total_interest := Some 0;
        monthly_interest := 0; min_payment_to_amortize := 0;
        reason := None |}.
Proof.
  exact (proj1 cap_applies_to_interest_bearing_loop_only
           float binary64 binary64_laws 100000 0 100 1000%Z
           eq_refl eq_refl eq_refl eq_refl 600%Z).
Defined.

(** C10 as stated fails in binary64 at balance = 1, apr = 0 and the least
    positive payment 2^-1074, where the quotient overflows and
    [math.ceil] raises OverflowError, and at an APR that is NaN with
    max_months = 0, where the result is too_long although APR > 0 is
    false. *)
Lemma cap_claim_fails_on_overflow_and_nan :
  ((1 >? 0)%py = true /\ (0x1p-1074 >? 0)%py = true /\ (0 <=? 0)%py = true
   /\ _estimate_debt_payoff (PF:=binary64) 1 0 0x1p-1074 600
      = Raise OverflowError)
  /\ (exists e,
        _estimate_debt_payoff (PF:=binary64) 1000 nan 100 0 = Ok e
        /\ status e = too_long
        /\ (nan >? 0)%py = false).
Proof.
  split; [ repeat split | ].
  eexists. split; [ vm_compute; reflexivity | ]. split; reflexivity.
Qed.

(** C2 as stated fails at balance = 100000, apr = 12, payment = 1001: the
    loop makes its 600 passes, the balance is still positive, and
    total_interest is a number, not None. *)
Lemma too_long_total_interest_not_null :
  amortizing (PF:=binary64) 100000 12 1001 = true
  /\ exists e,
       _estimate_debt_payoff (PF:=binary64) 100000 12 1001 600 = Ok e
       /\ status e = too_long /\ months e = None
       /\ total_interest e <> None.
Proof.
  split; [ reflexivity | ].
  eexists. split; [ vm_compute; reflexivity | ].
  cbn. repeat split. discriminate.
Qed.

(** C2 as the code has it, at the same input. *)
Lemma too_long_100000_12_1001 :
  exists ti,
    _estimate_debt_payoff (PF:=binary64) 100000 12 1001 600 =
    Ok {| status := too_long;
          months := None;
          total_interest := Some ti;
          monthly_interest := 1000;
          min_payment_to_amortize := 1001;
          reason := Some "Not paid off within 600 months."%string |}.
Proof.
  eexists.
  refine (proj1 (too_long_reports_accumulated_interest (PF:=binary64)
                   100000 12 1001 600 _ _ _ eq_refl eq_refl eq_refl _ _)).
  - vm_compute. reflexivity.
  - reflexivity.
Defined.




(** Runs [compute_metrics] on a session and keeps the equation. *)
Ltac run_session st H :=
  eexists; split; [ vm_compute; reflexivity | ];
  lazymatch goal with
  | |- context [total_income ?m] =>
      assert (H : compute_metrics months_from_today st = Ok m)
        by (vm_compute; reflexivity)
  end.


(** C5 at the example session: both debts are paid off, so the combined
    estimate is reported: 15 months. *)
Lemma overall_estimate_of_example_session :
  exists m,
    compute_metrics months_from_today example_session = Ok m
    /\ total_income m = 5000
    /\ debt_overall_months m = Some 15%Z
    /\ debt_has_non_amortizing m = false
    /\ (total_debt_balance m >? f0)%py = true
    /\ (total_monthly_debt_payments m >? f0)%py = true
    /\ debt_weighted_apr m <> None.
Proof.
  run_session example_session H. split; [ reflexivity | ].
  split; [ reflexivity | ].
  destruct (proj1 (proj2 (proj2 (proj2 (proj2
              (overall_estimate_only_when_all_payable
                 (PF:=binary64) months_from_today
                 example_session _ H))))))
    as (_ & H1 & H2 & H3 & w & e & Hw & _).
  - left. discriminate.
  - repeat split; try assumption. rewrite Hw. discriminate.
Defined.

(** C7 at debts of 1000 at 10% and 3000 at 20%: 17.5. *)
Lemma weighted_apr_of_example_session :
  exists m,
    compute_metrics months_from_today example_session = Ok m
    /\ total_income m = 5000
    /\ debt_weighted_apr m = Some 17.5.
Proof.
  run_session example_session H. split; [ reflexivity | ].
  pose proof (proj2 (proj1 (weighted_apr_is_balance_weighted_mean
                              months_from_today)
                       float binary64 binary64_laws example_session _ H)
                eq_refl) as T.
  vm_compute in T. exact T.
Defined.

(** C8 at the example session: 5000 - 1000 = 4000 with the breakdown on,
    and the same for any company match. *)
Lemma net_income_of_example_session :
  exists m,
    compute_metrics months_from_today example_session = Ok m
    /\ total_income m = 5000
    /\ manual_deductions_total m = 1000
    /\ net_income m = 4000
    /\ company_match m = 100
    /\ exists m',
         compute_metrics months_from_today
           (set_manual_match example_session (Some 250)) = Ok m'
         /\ net_income m' = 4000.
Proof.
  run_session example_session H.
  destruct (net_income_respects_breakdown_flag (PF:=binary64)
              months_from_today example_session _ H)
    as (H1 & H2 & H3 & H4 & H5).
  repeat split; try reflexivity.
  destruct (H5 (Some 250)) as (m' & Hm' & Hn & _).
  exists m'. split; [ exact Hm' | exact Hn ].
Defined.

(** C9 at the example session: 300 / 4000 * 100 = 7.5; and with no income
    it is None. *)
Lemma debt_burden_of_example_session :
  (exists m,
     compute_metrics months_from_today example_session = Ok m
     /\ total_income m = 5000
     /\ debt_burden_pct m = Some 7.5)
  /\ debt_burden (PF:=binary64) 0 300 = Ok None.
Proof.
  split.
  - run_session example_session H. split; [ reflexivity | ].
    pose proof (proj2 (debt_burden_defined_iff_income_and_payments
                         (PF:=binary64) months_from_today)
                  example_session _ H) as T.
    vm_compute in T. exact T.
  - exact (proj1 (debt_burden_defined_iff_income_and_payments
                    (PF:=binary64) months_from_today) 0 300).
Defined.

(** * Further properties of the estimator *)

Local Close Scope float_scope.

(** Zero compared with itself, in both arithmetics. *)
Class PyFloatZero {F : Type} (PF : PyFloat F) : Prop := {
  fle_refl0 : (f0 <=? f0) = true;
  feq_refl0 : (f0 =? f0) = true
}.

#[export] Instance binary64_zero : PyFloatZero binary64.
Proof. split; reflexivity. Qed.

#[export] Instance exact_zero : PyFloatZero exact.
Proof. split; reflexivity. Qed.

Section EstimatorEdges.

Context {F : Type} {PF : PyFloat F} {PL : PyFloatLaws PF} {PZ : PyFloatZero PF}.

Lemma f0_not_pos : (f0 <? f0) = false.
Proof.
  destruct (f0 <? f0) eqn:E; [ | reflexivity ].
  pose proof (flt_nle _ _ E) as H. rewrite fle_refl0 in H. discriminate.
Qed.

(** The coercion [x or 0.0] keeps a value <= 0 at or below zero. *)
Lemma to_float_nonpos (x : F) :
  (x <=? f0) = true -> (to_float x <=? f0) = true.
Proof.
  intros H. destruct (fle_cases _ _ H) as [Hlt | Heq].
  - now rewrite (to_float_neg _ Hlt).
  - unfold to_float. rewrite Heq. apply fle_refl0.
Qed.

(** X1: a balance <= 0 (nothing owed, or a negative entry) is reported as
    paid off now: status paid_off, months 0, no interest, whatever the APR,
    the payment and the cap are; nothing is divided, so nothing raises. *)
Theorem nothing_owed_is_paid_off_now
  (balance apr_pct payment : F) (max_months : Z) :
  (balance <=? f0) = true ->
  _estimate_debt_payoff balance apr_pct payment max_months =
  Ok {| status := paid_off;
        months := Some 0%Z;
        total_interest := Some f0;
        monthly_interest := f0;
        min_payment_to_amortize := f0;
        reason := None |}.
Proof.
  intros H. unfold _estimate_debt_payoff.
  now rewrite (to_float_nonpos _ H).
Qed.

(** X2: a positive balance with a payment <= 0 gives no_payment: months and
    total_interest are None, monthly_interest is one month of interest on
    the balance, and the minimum payment is that interest plus 1 when the
    rate is positive and 0 when it is not. *)
Theorem no_payment_when_payment_not_positive
  (balance apr_pct payment : F) (max_months : Z) :
  (balance >? f0) = true ->
  (payment <=? f0) = true ->
  let monthly_rate := monthly_rate_of apr_pct in
  let monthly_interest :=
    if monthly_rate >? f0 then balance * monthly_rate else f0 in
  _estimate_debt_payoff balance apr_pct payment max_months =
  Ok {| status := no_payment;
        months := None;
        total_interest := None;
        monthly_interest := monthly_interest;
        min_payment_to_amortize :=
          if monthly_rate >? f0 then balance * monthly_rate + f1 else f0;
        reason := Some "No monthly payment entered."%string |}.
Proof.
  intros Hb Hp. cbn zeta.
  rewrite (estimate_positive_balance _ _ _ _ Hb). cbn zeta.
  rewrite (to_float_nonpos _ Hp).
  now destruct (monthly_rate_of apr_pct >? f0).
Qed.

End EstimatorEdges.

Section EstimatorShape.

Context {F : Type} {PF : PyFloat F} {PL : PyFloatLaws PF}.

(** The early return of the loop is a non_amortizing estimate. *)
Lemma amortize_returned (r p : F) :
  forall n b ti m e,
    amortize r p n b ti m = Returned e ->
    status e = non_amortizing /\ months e = None
    /\ total_interest e = None /\ reason e <> None.
Proof.
  induction n as [ | n IH]; intros b ti m e H; cbn [amortize] in H.
  - discriminate.
  - destruct (b >? f0); [ | discriminate ].
    unfold loop_body in H. destruct (p - b * r <=? f0).
    + injection H as <-. cbn. repeat split. discriminate.
    + exact (IH _ _ _ _ H).
Qed.

(** X3: in every estimate the function returns, months is a number exactly
    when the status is paid_off, reason is None exactly then, and
    total_interest is a number exactly for paid_off and too_long. *)
Theorem estimate_fields_follow_status
  (balance apr_pct payment : F) (max_months : Z) (e : PayoffEstimate) :
  _estimate_debt_payoff balance apr_pct payment max_months = Ok e ->
  (months e <> None <-> status e = paid_off)
  /\ (reason e = None <-> status e = paid_off)
  /\ (total_interest e <> None <->
      status e = paid_off \/ status e = too_long).
Proof.
  assert (Shape : forall e' : PayoffEstimate (F:=F),
    (status e' = paid_off /\ months e' <> None /\ reason e' = None
     /\ total_interest e' <> None)
    \/ (status e' = too_long /\ months e' = None /\ reason e' <> None
        /\ total_interest e' <> None)
    \/ ((status e' = non_amortizing \/ status e' = no_payment)
        /\ months e' = None /\ reason e' <> None /\ total_interest e' = None)
    ->
    (months e' <> None <-> status e' = paid_off)
    /\ (reason e' = None <-> status e' = paid_off)
    /\ (total_interest e' <> None <->
        status e' = paid_off \/ status e' = too_long)).
  { intros e' [(S1 & S2 & S3 & S4) | [(S1 & S2 & S3 & S4) | ([S1 | S1] & S2 & S3 & S4)]];
      rewrite S1; repeat split; intros; try tauto; try congruence;
      try (destruct H; congruence). }
  intros H. apply Shape. clear Shape. unfold _estimate_debt_payoff in H.
  destruct (to_float balance <=? f0).
  { injection H as <-. left. cbn. repeat split; discriminate. }
  destruct (pydiv _ f100) as [x | ?]; cbn [bind] in H; [ | discriminate ].
  destruct (pydiv x f12) as [rate | ?]; cbn [bind] in H; [ | discriminate ].
  destruct (to_float payment <=? f0).
  { injection H as <-. right. right. cbn. repeat split; auto; discriminate. }
  destruct (rate <=? f0).
  { destruct (pydiv _ _) as [q | ?]; cbn [bind] in H; [ | discriminate ].
    destruct (fceil q) as [k | ?]; cbn [bind] in H; [ | discriminate ].
    injection H as <-. left. cbn. repeat split; discriminate. }
  match type of H with
  | (if ?c then _ else _) = _ => destruct c
  end.
  { injection H as <-. right. right. cbn. repeat split; auto; discriminate. }
  destruct (amortize _ _ _ _ _ _) as [e' | b ti m] eqn:Hloop.
  - injection H as ->. right. right.
    destruct (amortize_returned _ _ _ _ _ _ _ Hloop) as (S1 & S2 & S3 & S4).
    repeat split; auto.
  - destruct (b >? f0); injection H as <-.
    + right. left. cbn. repeat split; discriminate.
    + left. cbn. repeat split; discriminate.
Qed.

(** The loop sees at most one balance more than it may make passes. *)
Lemma balances_length (r p : F) :
  forall n b ti m, (List.length (balances r p n b ti m) <= S n)%nat.
Proof.
  induction n as [ | n IH]; intros b ti m; cbn [balances List.length].
  - lia.
  - destruct (b >? f0); [ | cbn; lia ].
    destruct (loop_body r p b ti m) as [e | [[b1 ti1] m1]]; [ cbn; lia | ].
    specialize (IH b1 ti1 m1). lia.
Qed.

(** X4: when the monthly rate is not <= 0, a months the function returns is
    between 0 and max_months: the simulation never reports a payoff beyond
    its cap. *)
Theorem months_within_cap_when_interest_bearing
  (balance apr_pct payment : F) (max_months n : Z) (e : PayoffEstimate) :
  (monthly_rate_of apr_pct <=? f0) = false ->
  _estimate_debt_payoff balance apr_pct payment max_months = Ok e ->
  months e = Some n ->
  (0 <= n <= Z.max 0 max_months)%Z.
Proof.
  intros Hrate H Hn. unfold _estimate_debt_payoff in H.
  destruct (to_float balance <=? f0).
  { injection H as <-. cbn in Hn. injection Hn as <-. lia. }
  rewrite pydiv_f100 in H. cbn [bind] in H.
  rewrite pydiv_f12 in H. cbn [bind] in H.
  fold (monthly_rate_of apr_pct) in H. rewrite Hrate in H.
  destruct (to_float payment <=? f0).
  { injection H as <-. discriminate. }
  match type of H with
  | (if ?c then _ else _) = _ => destruct c
  end.
  { injection H as <-. discriminate. }
  destruct (amortize _ _ _ _ _ _) as [e' | b ti m] eqn:Hloop.
  - injection H as ->.
    destruct (amortize_returned _ _ _ _ _ _ _ Hloop) as (_ & S2 & _).
    congruence.
  - destruct (amortize_finished _ _ _ _ _ _ _ _ _ Hloop) as (_ & Hm & _ & _).
    pose proof (balances_length (monthly_rate_of apr_pct) (to_float payment)
                  (Z.to_nat max_months) (to_float balance) f0 0%Z) as Hlen.
    destruct (b >? f0); injection H as <-; cbn in Hn; [ discriminate | ].
    injection Hn as <-. lia.
Qed.

End EstimatorShape.

(** ** What the borrower pays, in exact arithmetic *)

(** Each pass moves the balance by the interest added and the payment
    made: the final balance is the first one plus the interest added up
    minus one payment per pass. *)
Lemma exact_amortize_accounting (r p : Qc) :
  forall n b ti (m : Z) b' ti' m',
    amortize r p n b ti m = Finished b' ti' m' ->
    (b' = b + (ti' - ti) - Qc_of_Z (m' - m) * p)%Qc.
Proof.
  induction n as [ | n IH]; intros b ti m b' ti' m' H; cbn [amortize] in H.
  - injection H as <- <- <-. rewrite Z.sub_diag.
    change (Qc_of_Z 0) with 0%Qc. ring.
  - destruct (b >? f0).
    + unfold loop_body in H. destruct (p - b * r <=? f0); [ discriminate | ].
      rewrite (IH _ _ _ _ _ _ H). cbn [fadd fsub fmul exact].
      replace (m' - m)%Z with ((m' - (m + 1)) + 1)%Z by lia.
      assert (E : forall k : Z, Qc_of_Z (k + 1) = (Qc_of_Z k + 1)%Qc).
      { intros k. apply Qc_is_canon. unfold Qc_of_Z.
        rewrite this_plus. cbn [this Q2Qc]. rewrite !Qred_correct.
        rewrite inject_Z_plus. reflexivity. }
      rewrite E. ring.
    + injection H as <- <- <-. rewrite Z.sub_diag.
      change (Qc_of_Z 0) with 0%Qc. ring.
Qed.

(** While the loop runs from a balance that the payment amortizes, the
    interest added is not negative and the last pass does not overshoot
    zero by a whole payment. *)
Lemma exact_amortize_bounds (r p b0 : Qc) :
  (f0 <? r) = true -> (b0 * r <? p) = true ->
  forall n b ti (m : Z) b' ti' m',
    (b <=? b0) = true ->
    amortize r p n b ti m = Finished b' ti' m' ->
    (ti <= ti')%Qc /\ ((m < m')%Z -> (f0 < b' + p)%Qc).
Proof.
  intros Hr Hp. induction n as [ | n IH]; intros b ti m b' ti' m' Hb H;
    cbn [amortize] in H.
  - injection H as <- <- <-. split; [ apply Qcle_refl | lia ].
  - destruct (b >? f0) eqn:Hpos.
    + assert (Hbp : (b * r <? p) = true) by (qc_arith; nra).
      rewrite (exact_loop_body _ _ _ ti m Hbp) in H.
      assert (Hle : (b - (p - b * r) <=? b0) = true) by (qc_arith; lra).
      destruct (IH _ _ _ _ _ _ Hle H) as [Hti Hlast].
      destruct (amortize_finished _ _ _ _ _ _ _ _ _ H) as (_ & Hm & _ & _).
      split.
      * apply Qcle_trans with (ti + b * r)%Qc; [ | exact Hti ].
        qc_arith. nra.
      * intros _. destruct (Z.eq_dec m' (m + 1)) as [-> | Hne].
        -- (* the pass just made was the last one *)
           destruct n as [ | n'].
           ++ cbn [amortize] in H. injection H; intros; subst b'.
              qc_arith. nra.
           ++ cbn [amortize] in H.
              destruct (b - (p - b * r) >? f0) eqn:Hnext.
              ** exfalso.
                 assert (Hbp' : ((b - (p - b * r)) * r <? p) = true)
                   by (qc_arith; nra).
                 rewrite (exact_loop_body _ _ _ _ _ Hbp') in H.
                 destruct (amortize_finished _ _ _ _ _ _ _ _ _ H)
                   as (_ & Hm' & _ & _).
                 lia.
              ** injection H; intros; subst b'. qc_arith. nra.
        -- apply Hlast. lia.
    + injection H as <- <- <-. split; [ apply Qcle_refl | lia ].
Qed.
(** X5: in exact arithmetic, when the simulation ends paid off after n
    months with total interest ti, n is at least 1, ti is not negative, and
    n payments cover the balance plus the interest with less than one
    payment to spare: the last payment is counted in full. *)
Theorem payments_cover_balance_and_interest_exact
  (balance apr_pct payment : Qc) (max_months n : Z) (ti : Qc)
  (e : PayoffEstimate) :
  amortizing balance apr_pct payment = true ->
  _estimate_debt_payoff balance apr_pct payment max_months = Ok e ->
  status e = paid_off ->
  months e = Some n ->
  total_interest e = Some ti ->
  (1 <= n)%Z
  /\ (f0 <= ti
      /\ balance + ti <= Qc_of_Z n * payment
      /\ Qc_of_Z n * payment < balance + ti + payment)%Qc.
Proof.
  unfold amortizing. rewrite !andb_true_iff. intros [[Hb Ha] Hp] H Hs Hn Hti.
  pose proof (proj1 (exact_monthly_rate_pos _) Ha) as Hr.
  pose proof (payment_above_interest_pos _ _ _ Hb Hr Hp) as Hpay.
  rewrite (estimate_positive_balance _ _ _ _ Hb) in H. cbn zeta in H.
  rewrite (to_float_pos _ Hpay), (flt_nle _ _ Hpay), (flt_nle _ _ Hr), Hr,
    (flt_nle _ _ Hp) in H.
  destruct (amortize _ _ _ _ _ _) as [e' | b' ti' m'] eqn:Hloop.
  { injection H as ->.
    destruct (amortize_returned _ _ _ _ _ _ _ Hloop) as (S1 & _). congruence. }
  destruct (b' >? f0) eqn:Hb'; injection H as <-; cbn in Hs, Hn, Hti;
    [ discriminate | ].
  injection Hn as <-. injection Hti as <-.
  assert (Hle : (balance <=? balance) = true) by (qc_arith; lra).
  pose proof (exact_amortize_accounting _ _ _ _ _ _ _ _ _ Hloop) as Hacc.
  destruct (exact_amortize_bounds _ _ _ Hr Hp _ _ _ _ _ _ _ Hle Hloop)
    as [Hti Hlast].
  destruct (amortize_finished _ _ _ _ _ _ _ _ _ Hloop) as (_ & Hm & _ & _).
  rewrite Z.sub_0_r in Hacc.
  assert (Hm1 : (1 <= m')%Z).
  { destruct (Z.le_gt_cases 1 m') as [ | Hlt ]; [ assumption | exfalso ].
    assert (Hz : m' = 0%Z) by lia. rewrite Hz in Hacc.
    rewrite Hacc in Hb'. clear Hloop Hlast Hm. qc_arith. nra. }
  split; [ exact Hm1 | ].
  specialize (Hlast ltac:(lia)). rewrite Hacc in Hb', Hlast.
  clear Hloop Hm. repeat split; qc_arith; nra.
Qed.

(** X6: in exact arithmetic, with no interest (APR <= 0) the months
    returned for a balance > 0 and a payment > 0 are the least number of
    payments that cover the balance. *)
Theorem zero_rate_months_least_cover_exact
  (balance apr_pct payment : Qc) (max_months : Z) :
  (balance >? f0) = true ->
  (payment >? f0) = true ->
  (apr_pct <=? f0) = true ->
  exists n,
    _estimate_debt_payoff balance apr_pct payment max_months =
    Ok {| status := paid_off; months := Some n; total_interest := Some f0;
          monthly_interest := f0; min_payment_to_amortize := f0;
          reason := None |}
    /\ (1 <= n)%Z
    /\ (balance <= Qc_of_Z n * payment
        /\ Qc_of_Z (n - 1) * payment < balance)%Qc.
Proof.
  intros Hb Hp Ha. exists (Qc_ceil (fdiv balance payment)).
  assert (Hrate : (monthly_rate_of apr_pct <=? f0) = true)
    by (rewrite (monthly_rate_of_nonpos _ Ha); apply zero_rate).
  split; [ | ].
  - rewrite (estimate_positive_balance _ _ _ _ Hb). cbn zeta.
    rewrite (to_float_pos _ Hp), (flt_nle _ _ Hp), Hrate.
    rewrite (pydiv_pos _ _ Hp). reflexivity.
  - destruct (Qc_ceil_spec (fdiv balance payment)) as [Hlo Hhi].
    set (n := Qc_ceil (fdiv balance payment)) in *.
    cbn [fdiv exact] in Hlo, Hhi. rewrite this_div in Hlo, Hhi.
    qc_arith.
    assert (Hq : (this balance / this payment * this payment == this balance)%Q)
      by (field; lra).
    assert (Hqpos : (0 < this balance / this payment)%Q)
      by (apply Qlt_shift_div_l; lra).
    set (q := (this balance / this payment)%Q) in *.
    assert (Hn : (1 <= n)%Z).
    { destruct (Z.le_gt_cases 1 n) as [ | Hlt ]; [ assumption | exfalso ].
      assert (Hz : (inject_Z n <= inject_Z 0)%Q)
        by (rewrite <- Zle_Qle; lia).
      unfold inject_Z in Hz. lra. }
    split; [ exact Hn | ].
    assert (Hn1 : (inject_Z (n - 1) == inject_Z n - 1)%Q)
      by (unfold Zminus; rewrite inject_Z_plus, inject_Z_opp; reflexivity).
    unfold inject_Z in Hn1. rewrite Hn1.
    split; nra.
Qed.

(** * Further properties of compute_metrics *)

Section PayoffRows.

Context {F : Type} {PF : PyFloat F}.

Variable payoff_date_after : Z -> res string.

(** X7: the payoff rows are the debts whose balance is not <= 0, in the
    order of the debt table, one entry per debt; each carries the balance,
    APR and payment of its debt and the status, months, total interest and
    reason of that debt's estimate.  Debts with nothing owed are left out
    even when they have an APR or a payment. *)
Theorem payoff_rows_are_the_debts_owed
  (st : SessionState) (m : Metrics) :
  compute_metrics payoff_date_after st = Ok m ->
  Forall2 payoff_row_of (filter kept_debt (pf_debt_df st))
    (debt_payoff_rows m).
Proof.
  intros H. unfold compute_metrics in H. bind_inv H.
  injection H as <-. cbn [debt_payoff_rows].
  match goal with
  | E : payoff_loop _ _ _ _ = Ok _ |- _ =>
      destruct (payoff_loop_rows _ _ _ _ _ _ E) as (new & -> & Hnew)
  end.
  exact Hnew.
Qed.

End PayoffRows.

Section Cashflow.

Context {F : Type} {PF : PyFloat F} {PL : PyFloatLaws PF}.

Variable payoff_date_after : Z -> res string.

(** How the cash-flow fields of the result are made of one another. *)
Lemma cashflow_fields (st : SessionState) (m : Metrics) :
  compute_metrics payoff_date_after st = Ok m ->
  remaining m = net_income m - total_outflow m
  /\ total_outflow m
     = expenses_total m + (saving_total m + investing_cashflow m)
       + total_monthly_debt_payments m
  /\ expenses_total m
     = fixed_total m + essential_total m + nonessential_total m
  /\ emergency_minimum_monthly m
     = fixed_total m + essential_total m + total_monthly_debt_payments m
  /\ ((net_income m >? f0) = true ->
      unallocated_pct m =
      Some (pymax f0
              (f100 -
               ((fdiv (emergency_minimum_monthly m) (net_income m) * f100
                 + fdiv (nonessential_total m) (net_income m) * f100)
                + fdiv (saving_total m + investing_cashflow m) (net_income m)
                  * f100)))).
Proof.
  intros H. unfold compute_metrics in H. bind_inv H.
  injection H as <-. cbn. repeat split. intros Hnet.
  match goal with
  | E : needs_wants_save_split _ _ _ _ = Ok _ |- _ =>
      rewrite needs_wants_save_split_total, Hnet in E; cbn zeta in E;
      injection E as _ _ _ <-
  end.
  reflexivity.
Qed.

End Cashflow.

Lemma exact_leftover_share (net fixed ess non sav inv debt : Qc) :
  (net >? f0) = true ->
  pymax f0
    (f100 - ((fdiv (fixed + ess + debt) net * f100 + fdiv non net * f100)
             + fdiv (sav + inv) net * f100))
  = (if (net - (fixed + ess + non + (sav + inv) + debt)) >? f0
     then fdiv (net - (fixed + ess + non + (sav + inv) + debt)) net * f100
     else f0).
Proof.
  intros Hnet.
  assert (Hnz : net <> 0%Qc).
  { intros E. rewrite E in Hnet. discriminate Hnet. }
  assert (Hpos : (0 < net)%Qc) by now apply exact_ltb_iff.
  assert (E : f100 - ((fdiv (fixed + ess + debt) net * f100
                       + fdiv non net * f100)
                      + fdiv (sav + inv) net * f100)
              = fdiv (net - (fixed + ess + non + (sav + inv) + debt)) net
                * f100).
  { cbn [f100 fadd fsub fmul fdiv exact]. field. exact Hnz. }
  unfold pymax. rewrite E.
  set (rem := (net - (fixed + ess + non + (sav + inv) + debt))%py) in *.
  assert (Hinv : (0 < / net)%Qc).
  { destruct (Qclt_le_dec 0 (/ net)) as [Hlt | Hle]; [ exact Hlt | exfalso ].
    pose proof (Qcmult_le_compat_r _ _ net Hle (Qclt_le_weak _ _ Hpos)) as C.
    rewrite Qcmult_inv_l in C by exact Hnz.
    replace (0 * net)%Qc with 0%Qc in C by ring.
    now apply C. }
  assert (Hk : (0 < / net * Qc_of_Z 100)%Qc).
  { replace 0%Qc with (0 * Qc_of_Z 100)%Qc by ring.
    apply Qcmult_lt_compat_r; [ reflexivity | exact Hinv ]. }
  assert (Hsign : (f0 <? fdiv rem net * f100) = (f0 <? rem)).
  { cbn [fdiv fmul f100 exact].
    replace (rem / net * Qc_of_Z 100)%Qc with (rem * (/ net * Qc_of_Z 100))%Qc
      by (unfold Qcdiv; ring).
    set (k := (/ net * Qc_of_Z 100)%Qc) in *.
    destruct (f0 <? rem) eqn:Hr.
    - apply exact_ltb_iff. apply exact_ltb_iff in Hr.
      cbn [f0 exact] in *. change (Qc_of_Z 0) with 0%Qc in *.
      replace 0%Qc with (0 * k)%Qc by ring.
      now apply Qcmult_lt_compat_r.
    - apply exact_ltb_false. apply exact_ltb_false in Hr.
      cbn [f0 exact] in *. change (Qc_of_Z 0) with 0%Qc in *.
      replace 0%Qc with (0 * k)%Qc by ring.
      apply Qcmult_le_compat_r; [ exact Hr | now apply Qclt_le_weak ]. }
  rewrite Hsign. reflexivity.
Qed.

Section Leftover.

Variable payoff_date_after : Z -> res string.

(** X8: in exact arithmetic, when net income is positive, unallocated_pct
    is the leftover (remaining = net income - total outflow) as a
    percentage of net income when the leftover is positive, and 0 when the
    outflows reach or exceed the income. *)
Theorem unallocated_pct_is_leftover_share_exact
  (st : SessionState (F:=Qc)) (m : Metrics) :
  compute_metrics payoff_date_after st = Ok m ->
  (net_income m >? f0) = true ->
  unallocated_pct m =
  Some (if remaining m >? f0
        then fdiv (remaining m) (net_income m) * f100
        else f0).
Proof.
  intros H Hnet.
  destruct (cashflow_fields payoff_date_after st m H)
    as (Hrem & Hout & Hexp & Hem & Hun).
  rewrite (Hun Hnet), Hrem, Hout, Hexp, Hem. f_equal.
  now apply exact_leftover_share.
Qed.

End Leftover.

(** * Payments compared, in exact arithmetic *)

(** ** A larger payment, in exact arithmetic *)

(** Run side by side from the same month, the loop with the larger payment
    stops no later, with no more interest, and with its balance cleared
    whenever the other one's is. *)
Lemma exact_amortize_payment_mono (r p p' b0 : Qc) :
  (f0 <? r) = true -> (b0 * r <? p) = true -> (p <=? p') = true ->
  forall (n : nat) (b b' ti ti' : Qc) (m : Z) (bf tif : Qc) (mf : Z),
    (b <=? b0) = true -> (b' <=? b) = true -> (ti' <=? ti) = true ->
    amortize r p n b ti m = Finished bf tif mf ->
    exists bf' tif' mf',
      amortize r p' n b' ti' m = Finished bf' tif' mf'
      /\ ((bf <=? f0) = true -> (bf' <=? f0) = true)
      /\ (tif' <= tif)%Qc /\ (mf' <= mf)%Z.
Proof.
  intros Hr Hp Hpp. induction n as [ | n IH];
    intros b b' ti ti' m bf tif mf Hb Hbb Hti H.
  - cbn [amortize] in H |- *. injection H as <- <- <-.
    exists b', ti', m. repeat split; [ | now apply exact_leb_iff | lia ].
    intros H0. qc_arith. lra.
  - destruct (exact_amortize_bounds _ _ _ Hr Hp _ _ _ _ _ _ _ Hb H)
      as [Hge _].
    destruct (amortize_finished _ _ _ _ _ _ _ _ _ H) as (_ & Hm & _ & _).
    cbn [amortize] in H |- *. destruct (b' >? f0) eqn:Hpos'.
    + assert (Hpos : (b >? f0) = true) by (qc_arith; lra).
      rewrite Hpos in H.
      assert (Hbp : (b * r <? p) = true) by (qc_arith; nra).
      assert (Hbp' : (b' * r <? p') = true) by (qc_arith; nra).
      rewrite (exact_loop_body _ _ _ ti m Hbp) in H.
      rewrite (exact_loop_body _ _ _ ti' m Hbp').
      apply (IH _ _ _ _ _ _ _ _) with (4 := H).
      * qc_arith. lra.
      * qc_arith. nra.
      * qc_arith. nra.
    + exists b', ti', m. repeat split; [ | | lia ].
      * intros _. qc_arith. lra.
      * apply Qcle_trans with ti; [ now apply exact_leb_iff | exact Hge ].
Qed.

(** [math.ceil] does not decrease when its argument grows. *)
Lemma Qc_ceil_mono (x y : Qc) : (x <= y)%Qc -> (Qc_ceil x <= Qc_ceil y)%Z.
Proof.
  intros H. destruct (Qc_ceil_spec x) as [Hx _].
  destruct (Qc_ceil_spec y) as [_ Hy]. unfold Qcle in H.
  assert (Hlt : (inject_Z (Qc_ceil x) < inject_Z (Qc_ceil y + 1))%Q).
  { rewrite inject_Z_plus. unfold inject_Z in *. lra. }
  rewrite <- Zlt_Qlt in Hlt. lia.
Qed.

(** X9: in exact arithmetic, paying more is never slower and never costs
    more: when a payment pays the debt off in n months with total interest
    ti, every larger payment pays it off too, in at most n months and with
    at most ti of interest. *)
Theorem paying_more_is_never_slower_exact
  (balance apr_pct payment payment' : Qc) (max_months n : Z) (ti : Qc)
  (e : PayoffEstimate) :
  (payment <=? payment') = true ->
  _estimate_debt_payoff balance apr_pct payment max_months = Ok e ->
  status e = paid_off ->
  months e = Some n ->
  total_interest e = Some ti ->
  exists e' n' ti',
    _estimate_debt_payoff balance apr_pct payment' max_months = Ok e'
    /\ status e' = paid_off
    /\ months e' = Some n'
    /\ total_interest e' = Some ti'
    /\ (n' <= n)%Z /\ (ti' <= ti)%Qc.
Proof.
  intros Hpp H Hs Hn Hti. destruct (balance <=? f0) eqn:Hb.
  - unfold _estimate_debt_payoff in *. rewrite !exact_to_float in *.
    rewrite Hb in *. injection H as <-. cbn in Hn, Hti.
    injection Hn as <-. injection Hti as <-.
    eexists _, _, _. split; [ reflexivity | ]. cbn.
    repeat split; [ lia | apply Qcle_refl ].
  - assert (Hpos : (balance >? f0) = true) by (qc_arith; lra).
    rewrite (estimate_positive_balance _ _ _ _ Hpos) in H.
    rewrite (estimate_positive_balance _ _ _ _ Hpos).
    cbn zeta in H |- *. rewrite !exact_to_float in *.
    destruct (payment <=? f0) eqn:Hp0.
    { injection H as <-. discriminate Hs. }
    assert (Hp0' : (payment' <=? f0) = false) by (qc_arith; lra).
    rewrite Hp0'.
    assert (Hppos : (payment >? f0) = true) by (qc_arith; lra).
    assert (Hppos' : (payment' >? f0) = true) by (qc_arith; lra).
    destruct (monthly_rate_of apr_pct <=? f0) eqn:Hr0.
    + rewrite (pydiv_pos _ _ Hppos) in H. rewrite (pydiv_pos _ _ Hppos').
      cbn [bind fceil exact] in H |- *. injection H as <-. cbn in Hn, Hti.
      injection Hn as <-. injection Hti as <-.
      eexists _, _, _. split; [ reflexivity | ]. cbn.
      repeat split; [ | apply Qcle_refl ].
      apply Qc_ceil_mono. clear Hr0 Hs.
      qc_arith. apply Qle_shift_div_l; [ lra | ].
      assert (E : (this balance / this payment' * this payment ==
                   this balance * this payment / this payment')%Q)
        by (field; lra).
      rewrite E. apply Qle_shift_div_r; [ lra | nra ].
    + assert (Hr : (monthly_rate_of apr_pct >? f0) = true) by (qc_arith; lra).
      rewrite Hr in *.
      destruct (payment <=? balance * monthly_rate_of apr_pct) eqn:Hint.
      { injection H as <-. discriminate Hs. }
      assert (Hint' :
                (payment' <=? balance * monthly_rate_of apr_pct) = false)
        by (revert Hint Hpp; generalize (monthly_rate_of apr_pct); intros;
            qc_arith; lra).
      rewrite Hint'.
      destruct (amortize _ payment _ _ _ _) as [e0 | bf tif mf] eqn:Hloop.
      { injection H as ->.
        destruct (amortize_returned _ _ _ _ _ _ _ Hloop) as (S1 & _).
        congruence. }
      destruct (bf >? f0) eqn:Hbf; injection H as <-; cbn in Hs, Hn, Hti;
        [ discriminate | ].
      injection Hn as <-. injection Hti as <-.
      assert (Hlt : (balance * monthly_rate_of apr_pct <? payment) = true)
        by (revert Hint; generalize (monthly_rate_of apr_pct); intros;
            qc_arith; lra).
      assert (Hle : (balance <=? balance) = true) by (qc_arith; lra).
      assert (Hz : ((f0 : Qc) <=? f0) = true) by (qc_arith; lra).
      destruct (exact_amortize_payment_mono _ _ _ _ Hr Hlt Hpp _ _ _ _ _ _
                  _ _ _ Hle Hle Hz Hloop)
        as (bf' & tif' & mf' & Hloop' & Hend & Htif & Hmf).
      rewrite Hloop'.
      assert (Hbf' : (bf' >? f0) = false).
      { assert (Hbf0 : (bf <=? f0) = true) by (qc_arith; lra).
        specialize (Hend Hbf0). qc_arith. lra. }
      rewrite Hbf'. eexists _, _, _. split; [ reflexivity | ]. cbn.
      repeat split; assumption.
Qed.

(** ** The minimum payment that is shown, in exact arithmetic *)

(** X13: in exact arithmetic, for a balance > 0 and an APR > 0, the
    min_payment_to_amortize of every estimate is one month of interest on
    the balance plus 1, whatever the payment was, and a payment of that
    amount does amortize: the estimate for it is paid_off or too_long,
    never non_amortizing or no_payment. *)
Theorem min_payment_to_amortize_amortizes_exact
  (balance apr_pct payment : Qc) (max_months : Z) (e : PayoffEstimate) :
  (balance >? f0) = true ->
  (apr_pct >? f0) = true ->
  _estimate_debt_payoff balance apr_pct payment max_months = Ok e ->
  min_payment_to_amortize e = balance * monthly_rate_of apr_pct + f1
  /\ exists e',
       _estimate_debt_payoff balance apr_pct (min_payment_to_amortize e)
         max_months = Ok e'
       /\ (status e' = paid_off \/ status e' = too_long).
Proof.
  intros Hb Ha H.
  pose proof (proj1 (exact_monthly_rate_pos _) Ha) as Hr.
  assert (Hle : (balance <=? balance) = true) by (qc_arith; lra).
  assert (Hmin : min_payment_to_amortize e
                 = balance * monthly_rate_of apr_pct + f1).
  { rewrite (estimate_positive_balance _ _ _ _ Hb) in H. cbn zeta in H.
    rewrite exact_to_float, Hr, (flt_nle _ _ Hr) in H.
    destruct (payment <=? f0); [ now injection H as <- | ].
    destruct (payment <=? balance * monthly_rate_of apr_pct) eqn:Hint;
      [ now injection H as <- | ].
    assert (Hp : (balance * monthly_rate_of apr_pct <? payment) = true)
      by (revert Hint; generalize (monthly_rate_of apr_pct); intros;
          qc_arith; lra).
    destruct (exact_amortize_progress _ _ _ Hr Hp (Z.to_nat max_months)
                balance f0 0%Z Hle) as (_ & bf & tif & mf & Hloop).
    rewrite Hloop in H. destruct (bf >? f0); now injection H as <-. }
  split; [ exact Hmin | ]. rewrite Hmin. clear H Hmin.
  set (p := balance * monthly_rate_of apr_pct + f1).
  assert (Hp : (balance * monthly_rate_of apr_pct <? p) = true)
    by (subst p; generalize (monthly_rate_of apr_pct); intros;
        qc_arith; lra).
  pose proof (payment_above_interest_pos _ _ _ Hb Hr Hp) as Hpos.
  rewrite (estimate_positive_balance _ _ _ _ Hb). cbn zeta.
  rewrite (to_float_pos _ Hpos), (flt_nle _ _ Hpos), (flt_nle _ _ Hr), Hr,
    (flt_nle _ _ Hp).
  destruct (exact_amortize_progress _ _ _ Hr Hp (Z.to_nat max_months)
              balance f0 0%Z Hle) as (_ & bf & tif & mf & Hloop).
  rewrite Hloop. destruct (bf >? f0); eexists; split; try reflexivity;
    cbn; auto.
Qed.

(** * Properties of the dashboard page *)

(** ** Labels and keywords *)

Lemma is_space_lower_char (c : Ascii.ascii) :
  is_space (Dashboard.lower_char c) = is_space c.
Proof.
  destruct c as [[] [] [] [] [] [] [] []]; vm_compute; reflexivity.
Qed.

Lemma lower_char_space (c : Ascii.ascii) :
  is_space c = true -> Dashboard.lower_char c = c.
Proof.
  destruct c as [[] [] [] [] [] [] [] []]; vm_compute; intros H;
    first [ reflexivity | discriminate H ].
Qed.

Lemma lower_char_idem (c : Ascii.ascii) :
  Dashboard.lower_char (Dashboard.lower_char c) = Dashboard.lower_char c.
Proof.
  destruct c as [[] [] [] [] [] [] [] []]; vm_compute; reflexivity.
Qed.

Lemma lower_idem (s : string) :
  Dashboard.lower (Dashboard.lower s) = Dashboard.lower s.
Proof.
  induction s as [ | c s IH]; cbn; [ reflexivity | ].
  now rewrite lower_char_idem, IH.
Qed.

Lemma lower_lstrip (s : string) :
  Dashboard.lower (lstrip s) = lstrip (Dashboard.lower s).
Proof.
  induction s as [ | c s IH]; cbn [lstrip Dashboard.lower]; [ reflexivity | ].
  rewrite is_space_lower_char. destruct (is_space c); [ exact IH | reflexivity ].
Qed.

Lemma lower_rstrip (s : string) :
  Dashboard.lower (rstrip s) = rstrip (Dashboard.lower s).
Proof.
  induction s as [ | c s IH]; cbn [rstrip Dashboard.lower]; [ reflexivity | ].
  rewrite <- IH, is_space_lower_char.
  destruct (rstrip s); cbn [Dashboard.lower]; [ | reflexivity ].
  destruct (is_space c); reflexivity.
Qed.

Lemma lower_strip (s : string) :
  Dashboard.lower (strip s) = strip (Dashboard.lower s).
Proof. unfold strip. now rewrite lower_rstrip, lower_lstrip. Qed.

Lemma lower_sub_spaces (s : string) :
  forall b,
    Dashboard.lower (Dashboard.sub_spaces b s)
    = Dashboard.sub_spaces b (Dashboard.lower s).
Proof.
  induction s as [ | c s IH]; intros b;
    cbn [Dashboard.sub_spaces Dashboard.lower]; [ reflexivity | ].
  rewrite is_space_lower_char. destruct (is_space c).
  - destruct b; cbn [Dashboard.lower]; now rewrite IH.
  - cbn [Dashboard.lower]. now rewrite IH.
Qed.

(** The label is read through [lower] alone. *)
Lemma norm_of_lower (s : string) :
  Dashboard._norm s
  = Dashboard.sub_spaces false (strip (Dashboard.lower s)).
Proof. unfold Dashboard._norm. now rewrite lower_strip. Qed.

(** X10: the keyword match ignores letter case, in the labels and in the
    keywords: two tables whose rows agree on the amounts and, up to the
    case of the letters, on the labels, with keywords that agree up to
    case, give the same sum. *)
Theorem keyword_sum_ignores_letter_case {F : Type} {PF : PyFloat F}
  (rows rows' : list Row) (keywords keywords' : list string) :
  Forall2 (fun r r' => Dashboard.lower (Label r) = Dashboard.lower (Label r')
                       /\ Amount r = Amount r') rows rows' ->
  map Dashboard.lower keywords = map Dashboard.lower keywords' ->
  Dashboard._sum_by_keywords (Some rows) keywords
  = Dashboard._sum_by_keywords (Some rows') keywords'.
Proof.
  intros Hrows Hk.
  assert (Hfold : forall acc,
    fold_left
      (fun total row =>
         if existsb (fun k => Dashboard.str_in k (Dashboard._norm (Label row)))
              (map Dashboard.lower keywords)
         then total + fillna (Amount row) else total) rows acc
    = fold_left
      (fun total row =>
         if existsb (fun k => Dashboard.str_in k (Dashboard._norm (Label row)))
              (map Dashboard.lower keywords')
         then total + fillna (Amount row) else total) rows' acc).
  { rewrite <- Hk.
    induction Hrows as [ | r r' rows rows' [Hl Ha] _ IH]; intros acc;
      [ reflexivity | ].
    cbn [fold_left]. rewrite !norm_of_lower, Hl, Ha. apply IH. }
  unfold Dashboard._sum_by_keywords.
  destruct Hrows as [ | r r' rows rows' Hr Hrows]; [ reflexivity | ].
  apply Hfold.
Qed.

(** No whitespace but single spaces between other characters;
    [after_space] tells that the character before was a space, or that the
    string starts here. *)
Fixpoint single_spaced (after_space : bool) (s : string) : bool :=
  match s with
  | String c s' =>
      if is_space c then
        Ascii.eqb c Dashboard.space && negb after_space && single_spaced true s'
      else single_spaced false s'
  | EmptyString => negb after_space
  end.

(** A label in normal form: empty, or without capital letters, without
    whitespace at either end, and with single spaces as its only
    whitespace. *)
Definition normal_label (s : string) : bool :=
  match s with
  | EmptyString => true
  | String _ _ => single_spaced true s && String.eqb (Dashboard.lower s) s
  end.

Lemma rstrip_fixed (c : Ascii.ascii) (s : string) :
  rstrip (String c s) = String c s ->
  rstrip s = s /\ (s = EmptyString -> is_space c = false).
Proof.
  cbn [rstrip]. destruct (rstrip s) as [ | d t] eqn:E.
  - destruct (is_space c); [ discriminate | ].
    intros H. injection H as <-. now split.
  - intros H. injection H as <-. split; [ reflexivity | discriminate ].
Qed.

Lemma rstrip_idem (s : string) : rstrip (rstrip s) = rstrip s.
Proof.
  induction s as [ | c s IH]; cbn [rstrip]; [ reflexivity | ].
  destruct (rstrip s) as [ | d t] eqn:E.
  - destruct (is_space c) eqn:Ec; cbn [rstrip]; [ reflexivity | ].
    now rewrite Ec.
  - cbn [rstrip] in IH |- *. rewrite IH.
    destruct (match rstrip t with
              | EmptyString =>
                  if is_space d then EmptyString else String d EmptyString
              | String a s0 => String d (String a s0)
              end) eqn:E'; [ discriminate IH | reflexivity ].
Qed.

Lemma lstrip_head (s : string) :
  lstrip s = EmptyString
  \/ exists c t, lstrip s = String c t /\ is_space c = false.
Proof.
  induction s as [ | c s IH]; cbn [lstrip]; [ now left | ].
  destruct (is_space c) eqn:Ec; [ exact IH | right; eauto ].
Qed.

Lemma rstrip_head (c : Ascii.ascii) (t : string) :
  is_space c = false -> exists t', rstrip (String c t) = String c t'.
Proof.
  intros Ec. cbn [rstrip]. destruct (rstrip t); [ rewrite Ec | ]; eauto.
Qed.

Lemma strip_shape (s : string) :
  rstrip (strip s) = strip s
  /\ (strip s = EmptyString
      \/ exists c t, strip s = String c t /\ is_space c = false).
Proof.
  unfold strip. split; [ apply rstrip_idem | ].
  destruct (lstrip_head s) as [-> | (c & t & -> & Ec)]; [ now left | ].
  right. destruct (rstrip_head c t Ec) as [t' ->]. eauto.
Qed.

Lemma sub_spaces_single_spaced (u : string) :
  forall b,
    rstrip u = u -> (u = EmptyString -> b = false) ->
    single_spaced b (Dashboard.sub_spaces b u) = true.
Proof.
  induction u as [ | c u IH]; intros b Hr Hb.
  - cbn. now rewrite Hb.
  - destruct (rstrip_fixed _ _ Hr) as [Hr' Hc].
    cbn [Dashboard.sub_spaces]. destruct (is_space c) eqn:Ec.
    + assert (Hne : u = EmptyString -> true = false)
        by (intros E; specialize (Hc E); congruence).
      destruct b.
      * now apply IH.
      * cbn [single_spaced]. change (is_space Dashboard.space) with true. cbn.
        now apply IH.
    + cbn [single_spaced]. rewrite Ec. now apply IH.
Qed.

Lemma single_spaced_sub_spaces (s : string) :
  forall a b, single_spaced a s = true -> (b = true -> a = true) ->
              Dashboard.sub_spaces b s = s.
Proof.
  induction s as [ | c s IH]; intros a b H Hab; [ reflexivity | ].
  cbn [single_spaced Dashboard.sub_spaces] in *.
  destruct (is_space c) eqn:Ec.
  - apply andb_true_iff in H as [H Hs]. apply andb_true_iff in H as [Hc Ha].
    apply Ascii.eqb_eq in Hc. subst c.
    destruct a; [ discriminate | ].
    destruct b; [ now specialize (Hab eq_refl) | ].
    f_equal. now apply (IH true).
  - f_equal. now apply (IH false).
Qed.

Lemma single_spaced_rstrip (s : string) :
  forall a, single_spaced a s = true -> rstrip s = s.
Proof.
  induction s as [ | c s IH]; intros a H; [ reflexivity | ].
  cbn [single_spaced rstrip] in *. destruct (is_space c) eqn:Ec.
  - apply andb_true_iff in H as [_ Hs]. rewrite (IH _ Hs).
    destruct s; [ discriminate Hs | reflexivity ].
  - rewrite (IH _ H). destruct s; reflexivity.
Qed.

Lemma single_spaced_strip (s : string) :
  single_spaced true s = true -> strip s = s.
Proof.
  intros H. unfold strip.
  assert (E : lstrip s = s).
  { destruct s as [ | c s]; [ reflexivity | ]. cbn [single_spaced lstrip] in *.
    destruct (is_space c); [ | reflexivity ].
    rewrite andb_false_r in H. discriminate H. }
  rewrite E. exact (single_spaced_rstrip _ _ H).
Qed.

Lemma single_spaced_lower (s : string) :
  forall a, single_spaced a (Dashboard.lower s) = single_spaced a s.
Proof.
  induction s as [ | c s IH]; intros a; cbn [single_spaced Dashboard.lower];
    [ reflexivity | ].
  rewrite is_space_lower_char. destruct (is_space c) eqn:Ec.
  - now rewrite (lower_char_space _ Ec), IH.
  - apply IH.
Qed.

(** X11: [_norm] puts every label in normal form (no capital letter, no
    whitespace at either end, single spaces as the only whitespace), leaves
    the labels in normal form as they are, and so is idempotent. *)
Theorem norm_gives_the_normal_form (s : string) :
  normal_label (Dashboard._norm s) = true
  /\ (normal_label s = true -> Dashboard._norm s = s)
  /\ Dashboard._norm (Dashboard._norm s) = Dashboard._norm s.
Proof.
  assert (Hfix : forall t, normal_label t = true -> Dashboard._norm t = t).
  { intros t Ht. destruct t as [ | c t]; [ reflexivity | ].
    unfold normal_label in Ht. apply andb_true_iff in Ht as [Hs Hl].
    apply String.eqb_eq in Hl. unfold Dashboard._norm.
    rewrite (single_spaced_strip _ Hs), Hl.
    now apply (single_spaced_sub_spaces _ true). }
  assert (Hnormal : normal_label (Dashboard._norm s) = true).
  { unfold Dashboard._norm. rewrite <- lower_sub_spaces.
    destruct (strip_shape s) as [Hr Hshape].
    destruct Hshape as [-> | (c & t & E & Ec)]; [ reflexivity | ].
    assert (Hsp : single_spaced false
                    (Dashboard.sub_spaces false (strip s)) = true)
      by (apply sub_spaces_single_spaced; [ exact Hr | reflexivity ]).
    rewrite E in Hsp |- *. cbn [Dashboard.sub_spaces] in Hsp |- *.
    rewrite Ec in Hsp |- *. cbn [Dashboard.lower]. unfold normal_label.
    apply andb_true_iff. split.
    - change (String (Dashboard.lower_char c)
                (Dashboard.lower (Dashboard.sub_spaces false t)))
        with (Dashboard.lower (String c (Dashboard.sub_spaces false t))).
      rewrite single_spaced_lower. cbn [single_spaced] in Hsp |- *.
      now rewrite Ec in Hsp |- *.
    - apply String.eqb_eq.
      change (String (Dashboard.lower_char c)
                (Dashboard.lower (Dashboard.sub_spaces false t)))
        with (Dashboard.lower (String c (Dashboard.sub_spaces false t))).
      apply lower_idem. }
  split; [ exact Hnormal | ]. split; [ apply Hfix | ].
  apply Hfix, Hnormal.
Qed.

(** ** The split of the dashboard page *)

Section DashboardSplit.

Context {F : Type} {PF : PyFloat F} {PL : PyFloatLaws PF}.

(** How the locals of the calculations are made of one another. *)
Lemma dashboard_fields (st : Dashboard.State) (c : Dashboard.Calcs) :
  Dashboard.calculations st = Ok c ->
  Dashboard.variable_total c
  = Dashboard._sum_df (Some (Dashboard.pf_variable_df st)) Amount
  /\ Dashboard.essential_variable c
     = Dashboard._sum_by_keywords (Some (Dashboard.pf_variable_df st))
         Dashboard.ESSENTIAL_VARIABLE_KEYWORDS
  /\ Dashboard.needs_total c
     = Dashboard.fixed_total c + Dashboard.essential_variable c
       + Dashboard.total_monthly_debt_payments c
  /\ Dashboard.wants_total c
     = pymax (Dashboard.variable_total c - Dashboard.essential_variable c) f0
  /\ Dashboard.remaining c
     = Dashboard.net_income c
       - ((Dashboard.fixed_total c + Dashboard.variable_total c)
          + (Dashboard.saving_total c + Dashboard.investing_cashflow c)
          + Dashboard.total_monthly_debt_payments c)
  /\ Dashboard.unallocated_total c = pymax (Dashboard.remaining c) f0
  /\ ((Dashboard.net_income c >? f0) = true ->
      Dashboard.unallocated_pct c =
      Some (pymax f0
              (f100 -
               ((fdiv (Dashboard.needs_total c) (Dashboard.net_income c)
                 * f100
                 + fdiv (Dashboard.wants_total c) (Dashboard.net_income c)
                   * f100)
                + fdiv (Dashboard.saving_total c
                        + Dashboard.investing_cashflow c)
                    (Dashboard.net_income c)
                  * f100)))).
Proof.
  intros H. unfold Dashboard.calculations in H. bind_inv H.
  injection H as <-.
  cbn [Dashboard.variable_total Dashboard.essential_variable
       Dashboard.needs_total Dashboard.wants_total Dashboard.remaining
       Dashboard.unallocated_total Dashboard.unallocated_pct
       Dashboard.net_income Dashboard.fixed_total
       Dashboard.total_monthly_debt_payments Dashboard.saving_total
       Dashboard.investing_cashflow].
  repeat split. intros Hnet.
  match goal with
  | E : needs_wants_save_split _ _ _ _ = Ok _ |- _ =>
      rewrite needs_wants_save_split_total in E; cbn zeta in E;
      destruct (_ >? f0) eqn:Hc in E; injection E as _ _ _ <-
  end.
  - reflexivity.
  - exfalso. assert (X : true = false) by (rewrite <- Hnet; exact Hc).
    discriminate X.
Qed.

End DashboardSplit.

Lemma exact_keyword_sum_bounds (rows : list (Row (F:=Qc)))
  (keywords : list string) :
  Forall (fun r => (f0 <=? Amount r) = true) rows ->
  (f0 <= Dashboard._sum_by_keywords (Some rows) keywords
   /\ Dashboard._sum_by_keywords (Some rows) keywords
      <= Dashboard._sum_df (Some rows) Amount)%Qc.
Proof.
  intros Hrows.
  assert (Hfold : forall a b : Qc, (f0 <= a)%Qc -> (a <= b)%Qc ->
    (f0 <= fold_left
             (fun total row =>
                if existsb
                     (fun k => Dashboard.str_in k (Dashboard._norm (Label row)))
                     (map Dashboard.lower keywords)
                then total + fillna (Amount row) else total) rows a
     /\ fold_left
          (fun total row =>
             if existsb
                  (fun k => Dashboard.str_in k (Dashboard._norm (Label row)))
                  (map Dashboard.lower keywords)
             then total + fillna (Amount row) else total) rows a
        <= fold_left (fun acc r => acc + fillna (Amount r)) rows b)%Qc).
  { induction Hrows as [ | r rows Hr _ IH]; intros a b Ha Hab;
      [ now split | ].
    cbn [fold_left]. unfold fillna. cbn [fisnan exact].
    destruct (existsb _ _); apply IH; qc_arith; lra. }
  unfold Dashboard._sum_by_keywords, Dashboard._sum_df.
  destruct rows as [ | r rows].
  - split; apply Qcle_refl.
  - apply Hfold; apply Qcle_refl.
Qed.

(** X12: on the dashboard page, in exact arithmetic and with no negative
    amount in the variable-expense table, the essential part found by
    keyword lies between 0 and the variable total, so that wants is exactly
    the rest of the variable total (the clamp at 0 is not used) and needs
    and wants together are the fixed, variable and debt outflows.  With a
    positive net income the unallocated percentage is then the unallocated
    total as a share of net income. *)
Theorem dashboard_split_accounts_for_variable_spending_exact
  (st : Dashboard.State (F:=Qc)) (c : Dashboard.Calcs) :
  Dashboard.calculations st = Ok c ->
  Forall (fun r => (f0 <=? Amount r) = true) (Dashboard.pf_variable_df st) ->
  (f0 <= Dashboard.essential_variable c
   /\ Dashboard.essential_variable c <= Dashboard.variable_total c)%Qc
  /\ Dashboard.wants_total c
     = Dashboard.variable_total c - Dashboard.essential_variable c
  /\ Dashboard.needs_total c + Dashboard.wants_total c
     = Dashboard.fixed_total c + Dashboard.variable_total c
       + Dashboard.total_monthly_debt_payments c
  /\ ((Dashboard.net_income c >? f0) = true ->
      Dashboard.unallocated_pct c
      = Some (fdiv (Dashboard.unallocated_total c) (Dashboard.net_income c)
              * f100)).
Proof.
  intros H Hrows.
  destruct (dashboard_fields st c H)
    as (Hvar & Hess & Hneeds & Hwants & Hrem & Hun & Hpct).
  destruct (exact_keyword_sum_bounds _ Dashboard.ESSENTIAL_VARIABLE_KEYWORDS
              Hrows) as [H0 Hle].
  rewrite <- Hvar, <- Hess in *. clear Hvar Hess H Hrows.
  assert (Hw : Dashboard.wants_total c
               = Dashboard.variable_total c - Dashboard.essential_variable c).
  { rewrite Hwants. unfold pymax.
    destruct (f0 >? _) eqn:E; [ exfalso | reflexivity ].
    revert E H0 Hle. generalize (Dashboard.variable_total c),
      (Dashboard.essential_variable c). intros v e E H0 Hle.
    qc_arith. lra. }
  split; [ now split | ]. split; [ exact Hw | ]. split.
  - rewrite Hneeds, Hw. cbn [fadd fsub exact]. ring.
  - intros Hnet. rewrite (Hpct Hnet), Hneeds, Hw, Hun, Hrem. f_equal.
    rewrite (exact_leftover_share _ _ _ _ _ _ _ Hnet).
    revert Hnet.
    generalize (Dashboard.net_income c), (Dashboard.fixed_total c),
      (Dashboard.variable_total c), (Dashboard.essential_variable c),
      (Dashboard.saving_total c), (Dashboard.investing_cashflow c),
      (Dashboard.total_monthly_debt_payments c).
    intros net fixed var ess sav inv debt Hnet.
    assert (E : net - (fixed + ess + (var - ess) + (sav + inv) + debt)
                = net - (fixed + var + (sav + inv) + debt))
      by (cbn [fadd fsub exact]; ring).
    rewrite E. generalize (net - (fixed + var + (sav + inv) + debt))%py.
    intros rem. unfold pymax. destruct (rem >? f0) eqn:Hr.
    + assert (Hr' : (f0 >? rem) = false) by (qc_arith; lra).
      now rewrite Hr'.
    + destruct (f0 >? rem) eqn:Hr'.
      * cbn [fdiv fmul f0 exact]. change (Qc_of_Z 0) with 0%Qc.
        unfold Qcdiv. ring.
      * assert (Hz : rem = f0).
        { apply Qcle_antisym; qc_arith; lra. }
        rewrite Hz. cbn [fdiv fmul f0 exact]. change (Qc_of_Z 0) with 0%Qc.
        unfold Qcdiv. ring.
Qed.

(** * The further properties at concrete inputs *)

Local Open Scope float_scope.

(** X1 at a negative balance, with an APR and a payment entered. *)
Lemma nothing_owed_at_minus_50 :
  _estimate_debt_payoff (PF:=binary64) (-50) 24 100 600 =
  Ok {| status := paid_off; months := Some 0%Z; total_interest := Some 0;
        monthly_interest := 0; min_payment_to_amortize := 0;
        reason := None |}.
Proof.
  exact (nothing_owed_is_paid_off_now (PF:=binary64) (-50) 24 100 600
           eq_refl).
Defined.

(** X2 at balance = 1200, apr = 10, payment = 0: the interest of a month
    is 10 and the minimum payment 11. *)
Lemma no_payment_1200_10_0 :
  exists e,
    _estimate_debt_payoff (PF:=binary64) 1200 10 0 600 = Ok e
    /\ status e = no_payment /\ months e = None /\ total_interest e = None.
Proof.
  eexists. split.
  - exact (no_payment_when_payment_not_positive (PF:=binary64) 1200 10 0 600
             eq_refl eq_refl).
  - repeat split.
Defined.

(** X3 at balance = 1000, apr = 12, payment = 100. *)
Lemma estimate_fields_of_1000_12_100 :
  exists e,
    _estimate_debt_payoff (PF:=binary64) 1000 12 100 600 = Ok e
    /\ (months e <> None <-> status e = paid_off)
    /\ (reason e = None <-> status e = paid_off)
    /\ (total_interest e <> None <->
        status e = paid_off \/ status e = too_long).
Proof.
  eexists. split; [ vm_compute; reflexivity | ].
  apply (estimate_fields_follow_status (PF:=binary64) 1000 12 100 600).
  vm_compute. reflexivity.
Defined.

(** X4 at balance = 1000, apr = 12, payment = 100: 11 months, within the
    cap of 600. *)
Lemma months_of_1000_12_100_within_cap :
  (monthly_rate_of (PF:=binary64) 12 <=? 0)%py = false
  /\ exists e,
       _estimate_debt_payoff (PF:=binary64) 1000 12 100 600 = Ok e
       /\ months e = Some 11%Z
       /\ (0 <= 11 <= Z.max 0 600)%Z.
Proof.
  split; [ reflexivity | ]. eexists. split; [ vm_compute; reflexivity | ].
  split; [ reflexivity | ].
  eapply (months_within_cap_when_interest_bearing (PF:=binary64)
            1000 12 100 600 11);
    [ reflexivity | vm_compute; reflexivity | reflexivity ].
Defined.

(** X10 at a label and keywords in capitals. *)
Lemma keyword_sum_of_capitals :
  Dashboard._sum_by_keywords (PF:=binary64)
    (Some [mkRow "GROCERIES" 600 ""; mkRow "Dining out" 400 ""])
    ["Grocery"; "GROCERIES"]%string
  = Dashboard._sum_by_keywords (PF:=binary64)
      (Some [mkRow "Groceries" 600 ""; mkRow "dining OUT" 400 ""])
      ["grocery"; "groceries"]%string.
Proof.
  apply (keyword_sum_ignores_letter_case (PF:=binary64)).
  - repeat constructor.
  - reflexivity.
Defined.

(** X7 at the example session: both debts have a balance and are listed. *)
Lemma payoff_rows_of_example_session :
  exists m,
    compute_metrics months_from_today example_session = Ok m
    /\ List.length (debt_payoff_rows m) = 2%nat
    /\ Forall2 payoff_row_of
         (filter kept_debt (pf_debt_df example_session))
         (debt_payoff_rows m).
Proof.
  eexists. split; [ vm_compute; reflexivity | ]. split; [ reflexivity | ].
  apply (payoff_rows_are_the_debts_owed (PF:=binary64) months_from_today).
  vm_compute. reflexivity.
Defined.

Local Close Scope float_scope.

(** X5 at balance = 1000, apr = 12, payment = 500. *)
Lemma payments_cover_1000_12_500 :
  exists e n ti,
    _estimate_debt_payoff (PF:=exact) (Qc_of_Z 1000) (Qc_of_Z 12)
      (Qc_of_Z 500) 600 = Ok e
    /\ months e = Some n /\ total_interest e = Some ti
    /\ (1 <= n)%Z
    /\ (f0 <= ti
        /\ Qc_of_Z 1000 + ti <= Qc_of_Z n * Qc_of_Z 500
        /\ Qc_of_Z n * Qc_of_Z 500 < Qc_of_Z 1000 + ti + Qc_of_Z 500)%Qc.
Proof.
  eexists _, _, _. split; [ vm_compute; reflexivity | ].
  split; [ reflexivity | ]. split; [ reflexivity | ].
  eapply (payments_cover_balance_and_interest_exact
            (Qc_of_Z 1000) (Qc_of_Z 12) (Qc_of_Z 500) 600);
    [ reflexivity | vm_compute; reflexivity | reflexivity | reflexivity
    | reflexivity ].
Defined.

(** X6 at balance = 1200, apr = 0, payment = 100. *)
Lemma zero_rate_least_cover_1200_over_100 :
  exists n,
    _estimate_debt_payoff (PF:=exact) (Qc_of_Z 1200) (Qc_of_Z 0)
      (Qc_of_Z 100) 600 =
    Ok {| status := paid_off; months := Some n; total_interest := Some f0;
          monthly_interest := f0; min_payment_to_amortize := f0;
          reason := None |}
    /\ (1 <= n)%Z
    /\ (Qc_of_Z 1200 <= Qc_of_Z n * Qc_of_Z 100
        /\ Qc_of_Z (n - 1) * Qc_of_Z 100 < Qc_of_Z 1200)%Qc.
Proof.
  exact (zero_rate_months_least_cover_exact (Qc_of_Z 1200) (Qc_of_Z 0)
           (Qc_of_Z 100) 600 eq_refl eq_refl eq_refl).
Defined.

(** X8 at the exact session: 4000 of net income, 3500 of outflow. *)
Lemma leftover_share_of_exact_session :
  exists m,
    compute_metrics months_from_today exact_session = Ok m
    /\ (net_income m >? f0) = true
    /\ unallocated_pct m =
       Some (if remaining m >? f0
             then fdiv (remaining m) (net_income m) * f100
             else f0).
Proof.
  eexists. split; [ vm_compute; reflexivity | ]. split; [ reflexivity | ].
  apply (unallocated_pct_is_leftover_share_exact months_from_today
           exact_session); [ vm_compute | ]; reflexivity.
Defined.

(** X9 at balance = 1000, apr = 12: paying 600 instead of 500. *)
Lemma paying_600_instead_of_500 :
  exists e n ti,
    _estimate_debt_payoff (PF:=exact) (Qc_of_Z 1000) (Qc_of_Z 12)
      (Qc_of_Z 500) 600 = Ok e
    /\ status e = paid_off /\ months e = Some n /\ total_interest e = Some ti
    /\ exists e' n' ti',
         _estimate_debt_payoff (PF:=exact) (Qc_of_Z 1000) (Qc_of_Z 12)
           (Qc_of_Z 600) 600 = Ok e'
         /\ status e' = paid_off
         /\ months e' = Some n'
         /\ total_interest e' = Some ti'
         /\ (n' <= n)%Z /\ (ti' <= ti)%Qc.
Proof.
  eexists _, _, _. split; [ vm_compute; reflexivity | ].
  split; [ reflexivity | ]. split; [ reflexivity | ].
  split; [ reflexivity | ].
  eapply (paying_more_is_never_slower_exact
            (Qc_of_Z 1000) (Qc_of_Z 12) (Qc_of_Z 500) (Qc_of_Z 600) 600);
    [ reflexivity | vm_compute; reflexivity | reflexivity | reflexivity
    | reflexivity ].
Defined.

(** X12 at the exact dashboard state. *)
Lemma dashboard_split_of_exact_state :
  exists c,
    Dashboard.calculations exact_dashboard_state = Ok c
    /\ Dashboard.essential_variable c = Qc_of_Z 650
    /\ (f0 <= Dashboard.essential_variable c
        /\ Dashboard.essential_variable c <= Dashboard.variable_total c)%Qc
    /\ Dashboard.wants_total c
       = Dashboard.variable_total c - Dashboard.essential_variable c
    /\ Dashboard.needs_total c + Dashboard.wants_total c
       = Dashboard.fixed_total c + Dashboard.variable_total c
         + Dashboard.total_monthly_debt_payments c
    /\ ((Dashboard.net_income c >? f0) = true ->
        Dashboard.unallocated_pct c
        = Some (fdiv (Dashboard.unallocated_total c) (Dashboard.net_income c)
                * f100)).
Proof.
  eexists. split; [ vm_compute; reflexivity | ].
  split; [ vm_compute; reflexivity | ].
  apply (dashboard_split_accounts_for_variable_spending_exact
           exact_dashboard_state).
  - vm_compute. reflexivity.
  - repeat constructor.
Defined.

(** X13 at balance = 5000, apr = 24, payment = 90: the payment is below the
    interest of 100, and the minimum payment shown is 101. *)
Lemma min_payment_of_5000_24_90 :
  exists e,
    _estimate_debt_payoff (PF:=exact) (Qc_of_Z 5000) (Qc_of_Z 24)
      (Qc_of_Z 90) 600 = Ok e
    /\ status e = non_amortizing
    /\ min_payment_to_amortize e = Qc_of_Z 101
    /\ min_payment_to_amortize e
       = Qc_of_Z 5000 * monthly_rate_of (Qc_of_Z 24) + f1
    /\ exists e',
         _estimate_debt_payoff (PF:=exact) (Qc_of_Z 5000) (Qc_of_Z 24)
           (min_payment_to_amortize e) 600 = Ok e'
         /\ (status e' = paid_off \/ status e' = too_long).
Proof.
  eexists. split; [ vm_compute; reflexivity | ].
  split; [ reflexivity | ]. split; [ vm_compute; reflexivity | ].
  apply (min_payment_to_amortize_amortizes_exact
           (Qc_of_Z 5000) (Qc_of_Z 24) (Qc_of_Z 90) 600);
    [ reflexivity | reflexivity | vm_compute; reflexivity ].
Defined.
